(** * A shallow embedding of [vips.go] (julianshen/vips)

    The Go package is a thin layer over libvips.  The embedding keeps the
    decisions the Go code takes (format sniffing, resize planning, crop
    origin, EXIF orientation) exactly as written and leaves the pixel work
    to an abstract native engine, a record of oracles for the cgo calls. *)

From Stdlib Require Import ZArith Bool List Lia Ascii String.
From Stdlib Require Import Floats.SpecFloat.
From stdpp Require Import gmap strings.

Local Open Scope Z_scope.

(** ** Go machine integers *)

Module GoInt.

(** Go's [int] on the 64-bit targets cgo and libvips are built for. *)
Definition int_min : Z := - 2 ^ 63.
Definition int_max : Z := 2 ^ 63 - 1.

Definition is_int (z : Z) : Prop := int_min <= z <= int_max.

(** Two's complement wrap-around of an [int] result. *)
Definition wrap (z : Z) : Z := (z + 2 ^ 63) mod 2 ^ 64 - 2 ^ 63.

Definition add (a b : Z) : Z := wrap (a + b).
Definition sub (a b : Z) : Z := wrap (a - b).
(** [/] truncates toward zero, [%] takes the sign of the dividend. *)
Definition div (a b : Z) : Z := wrap (Z.quot a b).
Definition rem (a b : Z) : Z := Z.rem a b.

(** The conversion [C.int(z)]: C [int] has 32 bits. *)
Definition to_cint (z : Z) : Z := (z + 2 ^ 31) mod 2 ^ 32 - 2 ^ 31.

End GoInt.

(** ** IEEE 754 floats, after the Standard Library's [SpecFloat] *)

Module F64.

Definition prec : Z := 53.
Definition emax : Z := 1024.

Definition float64 : Type := spec_float.

(** [float64(i)] for an integer [i]: round to nearest even. *)
Definition of_int (z : Z) : float64 := binary_normalize prec emax z 0 false.

Definition div (x y : float64) : float64 := SFdiv prec emax x y.
Definition eqb (x y : float64) : bool := SFeqb x y.
Definition ltb (x y : float64) : bool := SFltb x y.

Definition is_nan (x : float64) : bool :=
  match x with S754_nan => true | _ => false end.
Definition is_inf (x : float64) (neg : bool) : bool :=
  match x with S754_infinity s => Bool.eqb s neg | _ => false end.
Definition signbit (x : float64) : bool :=
  match x with
  | S754_zero s | S754_infinity s | S754_finite s _ _ => s
  | S754_nan => false
  end.

(** [math.Min], with Go's special cases. *)
Definition Min (x y : float64) : float64 :=
  if is_inf x true || is_inf y true then S754_infinity true
  else if is_nan x || is_nan y then S754_nan
  else if eqb x (S754_zero false) && eqb x y then
    (if signbit x then x else y)
  else if ltb x y then x else y.

(** [math.Max], with Go's special cases. *)
Definition Max (x y : float64) : float64 :=
  if is_inf x false || is_inf y false then S754_infinity false
  else if is_nan x || is_nan y then S754_nan
  else if eqb x (S754_zero false) && eqb x y then
    (if signbit x then y else x)
  else if ltb y x then x else y.

(** The integer part of a finite float, rounded toward minus infinity. *)
Definition floorZ (s : bool) (m : positive) (e : Z) : Z :=
  let v := if s then Z.neg m else Z.pos m in
  if 0 <=? e then v * 2 ^ e else Z.shiftr v (- e).

(** The integer part of a finite float, rounded toward zero. *)
Definition truncZ (s : bool) (m : positive) (e : Z) : Z :=
  let a := if 0 <=? e then Z.pos m * 2 ^ e else Z.shiftr (Z.pos m) (- e) in
  if s then - a else a.

(** [math.Floor]: NaN, the infinities and the zeros are returned as they
    are; a finite value below 2^53 in magnitude has an exactly
    representable floor. *)
Definition Floor (x : float64) : float64 :=
  match x with
  | S754_finite s m e =>
      if 0 <=? e then x else binary_normalize prec emax (floorZ s m e) 0 s
  | _ => x
  end.

(** The result of converting a float outside the range of [int] (or a
    NaN) is left to the implementation by the Go specification; this is
    what amd64's CVTTSD2SQ gives. *)
Definition int_indefinite : Z := GoInt.int_min.

(** [int(x)]: truncation toward zero. *)
Definition to_int (x : float64) : Z :=
  match x with
  | S754_zero _ => 0
  | S754_finite s m e =>
      let t := truncZ s m e in
      if (GoInt.int_min <=? t) && (t <=? GoInt.int_max) then t
      else int_indefinite
  | _ => int_indefinite
  end.

End F64.

Module F32.

Definition prec : Z := 24.
Definition emax : Z := 128.

Definition float32 : Type := spec_float.

Definition of_int (z : Z) : float32 := binary_normalize prec emax z 0 false.
Definition mul (x y : float32) : float32 := SFmul prec emax x y.
Definition add (x y : float32) : float32 := SFadd prec emax x y.
(** [x > y] *)
Definition gtb (x y : float32) : bool := SFltb y x.

Definition to_int (x : float32) : Z :=
  match x with
  | S754_zero _ => 0
  | S754_finite s m e =>
      let t := F64.truncZ s m e in
      if (GoInt.int_min <=? t) && (t <=? GoInt.int_max) then t
      else F64.int_indefinite
  | _ => F64.int_indefinite
  end.

End F32.

(** ** Go byte slices *)

Module Slice.

(** A slice is a window on a backing array: [arr] holds the array from
    the slice's first element up to its capacity, [len] is the length. *)
Record t : Type := mk { arr : list Byte.byte; len : nat }.

Definition cap (s : t) : nat := length (arr s).
Definition wf (s : t) : Prop := (len s <= cap s)%nat.

(** The bytes the slice shows. *)
Definition contents (s : t) : list Byte.byte := firstn (len s) (arr s).

(** A slice literal or a freshly read buffer: capacity equals length. *)
Definition of_list (l : list Byte.byte) : t := mk l (length l).

(** [s[lo:hi]]; the bounds are checked against the capacity, and a
    violation is a run-time panic ([None]). *)
Definition slice (s : t) (lo hi : nat) : option t :=
  if (lo <=? hi)%nat && (hi <=? cap s)%nat
  then Some (mk (skipn lo (arr s)) (hi - lo))
  else None.

(** [&s[0]], handed to C together with [len(s)]: the index is checked
    against the length. *)
Definition addr0 (s : t) : option (list Byte.byte) :=
  if (0 <? len s)%nat then Some (contents s) else None.

Fixpoint bytes_eqb (a b : list Byte.byte) : bool :=
  match a, b with
  | [], [] => true
  | x :: a', y :: b' => Byte.eqb x y && bytes_eqb a' b'
  | _, _ => false
  end.

(** [bytes.Equal] *)
Definition Equal (a b : t) : bool := bytes_eqb (contents a) (contents b).

End Slice.

(** ** Constants and option record of the package *)

Definition bytes : Type := list Byte.byte.

Definition MARKER_JPEG : Slice.t := Slice.of_list [Byte.xff; Byte.xd8].
Definition MARKER_PNG : Slice.t := Slice.of_list [Byte.x89; Byte.x50].
Definition MARKER_WEBP : Slice.t :=
  Slice.of_list [Byte.x57; Byte.x45; Byte.x42; Byte.x50].
Definition MARKER_RIFF : Slice.t :=
  Slice.of_list [Byte.x52; Byte.x49; Byte.x46; Byte.x46].

(** [type ImageType int], an [iota] enumeration. *)
Definition ImageType : Type := Z.
Definition UNKNOWN : ImageType := 0.
Definition JPEG : ImageType := 1.
Definition PNG : ImageType := 2.
Definition WEBP : ImageType := 3.

(** [type Interpolator int] *)
Definition BICUBIC : Z := 0.
Definition BILINEAR : Z := 1.
Definition NOHALO : Z := 2.

(** The map [interpolations]; a missing key reads as the empty string. *)
Definition interpolations (i : Z) : string :=
  if i =? BICUBIC then "bicubic"
  else if i =? BILINEAR then "bilinear"
  else if i =? NOHALO then "nohalo"
  else "".

Definition Interpolator_String (i : Z) : string := interpolations i.

(** [type Extend int]; the values are those of libvips' [VipsExtend]. *)
Definition EXTEND_BLACK : Z := 0.
Definition EXTEND_WHITE : Z := 4.

(** [type Angle int] *)
Definition Angle : Type := Z.
Definition D0 : Angle := 0.
Definition D90 : Angle := 90.
Definition D180 : Angle := 180.
Definition D270 : Angle := 270.

(** [type Direction int]; the values are those of libvips'
    [VipsDirection]. *)
Definition Direction : Type := Z.
Definition HORIZONTAL : Direction := 0.
Definition VERTICAL : Direction := 1.

(** [type Gravity int], an [iota] enumeration. *)
Definition CENTRE : Z := 0.
Definition NORTH : Z := 1.
Definition EAST : Z := 2.
Definition SOUTH : Z := 3.
Definition WEST : Z := 4.
Definition CUSTOM : Z := 5.

Record Options : Type := mkOptions {
  Height : Z;
  Width : Z;
  Crop : bool;
  Enlarge : bool;
  Extend : Z;
  Embed : bool;
  Interpolator : Z;
  Gravity : Z;
  Quality : Z;
  LeftPos : F32.float32;
  TopPos : F32.float32;
  Savetype : ImageType;
  NoAutoRotate : bool;
  Rotate : Angle;
  Flip : bool;
  Flop : bool
}.

(** Assignments to single fields of a local [Options] value. *)
Definition set_Height (o : Options) (v : Z) : Options :=
  mkOptions v (Width o) (Crop o) (Enlarge o) (Extend o) (Embed o)
    (Interpolator o) (Gravity o) (Quality o) (LeftPos o) (TopPos o)
    (Savetype o) (NoAutoRotate o) (Rotate o) (Flip o) (Flop o).

Definition set_Width (o : Options) (v : Z) : Options :=
  mkOptions (Height o) v (Crop o) (Enlarge o) (Extend o) (Embed o)
    (Interpolator o) (Gravity o) (Quality o) (LeftPos o) (TopPos o)
    (Savetype o) (NoAutoRotate o) (Rotate o) (Flip o) (Flop o).

Definition set_Quality (o : Options) (v : Z) : Options :=
  mkOptions (Height o) (Width o) (Crop o) (Enlarge o) (Extend o) (Embed o)
    (Interpolator o) (Gravity o) v (LeftPos o) (TopPos o)
    (Savetype o) (NoAutoRotate o) (Rotate o) (Flip o) (Flop o).

Definition set_Rotate (o : Options) (v : Angle) : Options :=
  mkOptions (Height o) (Width o) (Crop o) (Enlarge o) (Extend o) (Embed o)
    (Interpolator o) (Gravity o) (Quality o) (LeftPos o) (TopPos o)
    (Savetype o) (NoAutoRotate o) v (Flip o) (Flop o).

Definition set_Flip (o : Options) (v : bool) : Options :=
  mkOptions (Height o) (Width o) (Crop o) (Enlarge o) (Extend o) (Embed o)
    (Interpolator o) (Gravity o) (Quality o) (LeftPos o) (TopPos o)
    (Savetype o) (NoAutoRotate o) (Rotate o) v (Flop o).

(** ** The native engine *)

(** What the Go code reads of a [VipsImage]: the two size fields (C
    [int]) and, through [vips_exif_orientation], the header string
    [exif-ifd0-Orientation] when the image carries one. *)
Record Image : Type := mkImage {
  Xsize : Z;
  Ysize : Z;
  exif_ifd0_Orientation : option string
}.

(** A [*C.VipsImage]; [None] is the nil pointer. *)
Definition handle : Type := option Image.

(** What a libvips call leaves behind: its status, the value it stored
    through its out pointer ([None]: the pointer was not written), and the
    text it appended to the library's error buffer. *)
Record CRet (A : Type) : Type := mkCRet {
  ret : Z;
  out : option A;
  msg : string
}.
Arguments mkCRet {A} _ _ _.
Arguments ret {A} _.
Arguments out {A} _.
Arguments msg {A} _.

(** How [vips_jpegload_buffer] is asked to load: the two wrappers of
    [vips.h] pass either ["access", VIPS_ACCESS_SEQUENTIAL] or
    ["shrink", n]. *)
Inductive LoadMode : Type :=
| AccessSequential
| ShrinkBy (n : Z).

(** The libvips operations behind the wrappers of [vips.h], as oracles. *)
Record Engine : Type := mkEngine {
  vips_jpegload_buffer : bytes -> LoadMode -> CRet Image;
  vips_pngload_buffer : bytes -> CRet Image;
  vips_webpload_buffer : bytes -> CRet Image;
  vips_shrink : handle -> F64.float64 -> F64.float64 -> CRet Image;
  vips_affine : handle -> F64.float64 -> F64.float64 -> F64.float64 ->
                F64.float64 -> string -> CRet Image;
  vips_extract_area : handle -> Z -> Z -> Z -> Z -> CRet Image;
  vips_embed : handle -> Z -> Z -> Z -> Z -> Z -> CRet Image;
  vips_colourspace : handle -> CRet Image;
  vips_jpegsave_buffer : handle -> Z -> Z -> Z -> CRet bytes;
  vips_webpsave_buffer : handle -> Z -> CRet bytes;
  vips_pngsave_buffer : handle -> Z -> CRet bytes;
  vips_rot : handle -> Z -> CRet Image;
  vips_flip : handle -> Z -> CRet Image;
  vips_autorot : handle -> CRet Image;
  vips_image_new_from_file : string -> handle
}.

(** The native calls a run makes, in order. *)
Inductive Call : Type :=
| Cjpegload_buffer (b : bytes) (m : LoadMode)
| Cpngload_buffer (b : bytes)
| Cwebpload_buffer (b : bytes)
| Cshrink (h : handle) (x y : F64.float64)
| Caffine (h : handle) (a b c d : F64.float64) (interp : string)
| Cextract_area (h : handle) (left top width height : Z)
| Cembed (h : handle) (left top width height extend : Z)
| Ccolourspace (h : handle)
| Cjpegsave_buffer (h : handle) (strip quality interlace : Z)
| Cwebpsave_buffer (h : handle) (quality : Z)
| Cpngsave_buffer (h : handle) (interlace : Z)
| Crot (h : handle) (angle : Z)
| Cflip (h : handle) (direction : Z)
| Cautorot (h : handle)
| Cimage_new_from_file (file : string)
| Cinterpolate_new (nickname : string)
| Cg_object_unref_interpolate (nickname : string)
| Cg_object_unref (h : handle)
| Cerror_clear
| Cthread_shutdown.

(** The part of the process the package shares with libvips: the
    library's error buffer and the calls made so far. *)
Record World : Type := mkWorld {
  error_buffer : string;
  calls : list Call
}.

Definition world0 : World := mkWorld "" [].

(** ** A monad for Go function bodies

    A statement either goes on with a value, leaves the function with its
    results, or panics.  [L] is the frame of the function's mutable
    locals. *)

Inductive Outcome (R A : Type) : Type :=
| Val (a : A)
| Return (r : R)
| Panic (why : string).
Arguments Val {R A} _.
Arguments Return {R A} _.
Arguments Panic {R A} _.

Definition M (L R A : Type) : Type := L * World -> Outcome R A * (L * World).

Definition val {L R A} (a : A) : M L R A := fun s => (Val a, s).
Definition return_ {L R A} (r : R) : M L R A := fun s => (Return r, s).
Definition panic {L R A} (why : string) : M L R A := fun s => (Panic why, s).

Definition bind {L R A B} (c : M L R A) (k : A -> M L R B) : M L R B :=
  fun s =>
    match c s with
    | (Val a, s') => k a s'
    | (Return r, s') => (Return r, s')
    | (Panic why, s') => (Panic why, s')
    end.

Notation "x <- c ;; k" := (bind c (fun x => k))
  (at level 100, c at next level, right associativity).
Notation "c ;;; k" := (bind c (fun _ => k))
  (at level 100, right associativity).

Definition get_local {L R} : M L R L := fun s => (Val (fst s), s).
Definition put_local {L R} (l : L) : M L R unit := fun s => (Val tt, (l, snd s)).
Definition get_world {L R} : M L R World := fun s => (Val (snd s), s).
Definition put_world {L R} (w : World) : M L R unit := fun s => (Val tt, (fst s, w)).

(** A value that is there unless the operation panicked. *)
Definition or_panic {L R A} (why : string) (x : option A) : M L R A :=
  match x with Some a => val a | None => panic why end.

(** [defer f] followed by [body]: [f] runs when the body returns, falls
    off its end or panics. *)
Definition with_defer {L R A} (f : World -> World) (body : M L R A) : M L R A :=
  fun s => let '(x, (l, w)) := body s in (x, (l, f w)).

(** The results of a Go function run from a fresh frame. *)
Inductive Result (R : Type) : Type :=
| Returned (r : R)
| Panicked (why : string).
Arguments Returned {R} _.
Arguments Panicked {R} _.

Definition run {L R} (body : M L R R) (l : L) (w : World) : Result R * L * World :=
  match body (l, w) with
  | (Val r, (l', w')) | (Return r, (l', w')) => (Returned r, l', w')
  | (Panic why, (l', w')) => (Panicked why, l', w')
  end.

(** Recording a native call, and what it adds to the error buffer. *)
Definition log {L R} (c : Call) : M L R unit :=
  fun s => (Val tt, (fst s, mkWorld (error_buffer (snd s)) (calls (snd s) ++ [c]))).

Definition native {L R A} (c : Call) (r : CRet A) : M L R (CRet A) :=
  fun s =>
    (Val r, (fst s, mkWorld (error_buffer (snd s) +:+ msg r) (calls (snd s) ++ [c]))).

(** Storing through an out pointer: the variable keeps its value when the
    callee did not write. *)
Definition stored {A} (old : option A) (r : CRet A) : option A :=
  match out r with Some a => Some a | None => old end.

(** Calling a Go function from another body: its frame is its own. *)
Definition call {L L' R R'} (f : M L' R' R') (l0 : L') : M L R R' :=
  fun s =>
    match f (l0, snd s) with
    | (Val r, (_, w')) | (Return r, (_, w')) => (Val r, (fst s, w'))
    | (Panic why, (_, w')) => (Panic why, (fst s, w'))
    end.

(** ** [vips.h]: the C side *)

Definition is_space (c : ascii) : bool :=
  let n := N.to_nat (Ascii.N_of_ascii c) in
  (n =? 32)%nat || ((9 <=? n)%nat && (n <=? 13)%nat).

Definition digit_of (c : ascii) : option Z :=
  let n := Z.of_N (Ascii.N_of_ascii c) in
  if (48 <=? n) && (n <=? 57) then Some (n - 48) else None.

Fixpoint skip_spaces (s : string) : string :=
  match s with
  | String c r => if is_space c then skip_spaces r else s
  | EmptyString => s
  end.

Fixpoint atoi_digits (s : string) (acc : Z) : Z :=
  match s with
  | String c r =>
      match digit_of c with
      | Some d => atoi_digits r (acc * 10 + d)
      | None => acc
      end
  | EmptyString => acc
  end.

(** libc's [atoi]: blanks, an optional sign, then the leading digits. *)
Definition atoi (s : string) : Z :=
  let s := skip_spaces s in
  GoInt.to_cint
    match s with
    | String "-"%char r => - atoi_digits r 0
    | String "+"%char r => atoi_digits r 0
    | _ => atoi_digits s 0
    end.

Definition vips_exif_orientation (image : Image) : Z :=
  match exif_ifd0_Orientation image with
  | Some exif => atoi exif
  | None => 0
  end.

(** The [VipsAngle] that [vips_rotate] picks for an angle in degrees;
    [VIPS_ANGLE_D0 .. VIPS_ANGLE_D270] are 0 .. 3. *)
Definition VipsAngle_of (angle : Z) : Z :=
  if angle =? 90 then 1
  else if angle =? 180 then 2
  else if angle =? 270 then 3
  else 0.

Section Native.

Context (E : Engine).
Context {L R : Type}.

Definition vips_jpegload_buffer_seq (b : bytes) : M L R (CRet Image) :=
  native (Cjpegload_buffer b AccessSequential)
         (vips_jpegload_buffer E b AccessSequential).

Definition vips_jpegload_buffer_shrink (b : bytes) (shrink : Z) : M L R (CRet Image) :=
  native (Cjpegload_buffer b (ShrinkBy shrink))
         (vips_jpegload_buffer E b (ShrinkBy shrink)).

Definition vips_pngload_buffer_seq (b : bytes) : M L R (CRet Image) :=
  native (Cpngload_buffer b) (vips_pngload_buffer E b).

Definition vips_webpload_buffer_custom (b : bytes) : M L R (CRet Image) :=
  native (Cwebpload_buffer b) (vips_webpload_buffer E b).

Definition vips_shrink_0 (h : handle) (x y : F64.float64) : M L R (CRet Image) :=
  native (Cshrink h x y) (vips_shrink E h x y).

Definition vips_affine_interpolator (h : handle) (a b c d : F64.float64)
    (interpolator : string) : M L R (CRet Image) :=
  native (Caffine h a b c d interpolator) (vips_affine E h a b c d interpolator).

Definition vips_extract_area_0 (h : handle) (left top width height : Z)
    : M L R (CRet Image) :=
  native (Cextract_area h left top width height)
         (vips_extract_area E h left top width height).

Definition vips_embed_extend (h : handle) (left top width height extend : Z)
    : M L R (CRet Image) :=
  native (Cembed h left top width height extend)
         (vips_embed E h left top width height extend).

Definition vips_colourspace_0 (h : handle) : M L R (CRet Image) :=
  native (Ccolourspace h) (vips_colourspace E h).

Definition vips_jpegsave_custom (h : handle) (strip quality interlace : Z)
    : M L R (CRet bytes) :=
  native (Cjpegsave_buffer h strip quality interlace)
         (vips_jpegsave_buffer E h strip quality interlace).

Definition vips_webpsave_custom (h : handle) (quality : Z) : M L R (CRet bytes) :=
  native (Cwebpsave_buffer h quality) (vips_webpsave_buffer E h quality).

(** [strip] and [quality] are dropped by the wrapper. *)
Definition vips_pngsave_custom (h : handle) (strip quality interlace : Z)
    : M L R (CRet bytes) :=
  native (Cpngsave_buffer h interlace) (vips_pngsave_buffer E h interlace).

Definition vips_rotate (h : handle) (angle : Z) : M L R (CRet Image) :=
  let rotate := VipsAngle_of angle in
  native (Crot h rotate) (vips_rot E h rotate).

Definition vips_flip_bridge (h : handle) (direction : Z) : M L R (CRet Image) :=
  native (Cflip h direction) (vips_flip E h direction).

Definition vips_autorotate (h : handle) : M L R (CRet Image) :=
  native (Cautorot h) (vips_autorot E h).

Definition vips_load_from_file (file : string) : M L R handle :=
  log (Cimage_new_from_file file);;;
  val (vips_image_new_from_file E file).

Definition g_object_unref (h : handle) : M L R unit := log (Cg_object_unref h).

Definition vips_error_clear : M L R unit :=
  w <- get_world;;
  put_world (mkWorld "" (calls w ++ [Cerror_clear])).

Definition vips_thread_shutdown : M L R unit := log Cthread_shutdown.

Definition vips_error_buffer : M L R string :=
  w <- get_world;; val (error_buffer w).

(** [C.GoBytes(ptr, C.int(length))] on what a save call stored: nothing
    stored leaves [ptr] nil and [length] 0, which gives an empty slice;
    a negative count panics. *)
Definition GoBytes (r : CRet bytes) : M L R bytes :=
  let data := match out r with Some b => b | None => [] end in
  let n := GoInt.to_cint (Z.of_nat (length data)) in
  if n <? 0 then panic "gobytes: length out of range"
  else val (firstn (Z.to_nat n) data).

End Native.

(** ** [vips.go]: pure helpers *)

Definition sharpCalcCrop (inWidth inHeight outWidth outHeight : Z)
    (customLeftPos customTopPos : F32.float32) (gravity : Z) : Z * Z :=
  if gravity =? NORTH then
    (GoInt.div (GoInt.add (GoInt.sub inWidth outWidth) 1) 2, 0)
  else if gravity =? EAST then
    (GoInt.sub inWidth outWidth,
     GoInt.div (GoInt.add (GoInt.sub inHeight outHeight) 1) 2)
  else if gravity =? SOUTH then
    (GoInt.div (GoInt.add (GoInt.sub inWidth outWidth) 1) 2,
     GoInt.sub inHeight outHeight)
  else if gravity =? WEST then
    (0, GoInt.div (GoInt.add (GoInt.sub inHeight outHeight) 1) 2)
  else if gravity =? CUSTOM then
    let customLeft := F32.mul (F32.of_int inWidth) customLeftPos in
    let customTop := F32.mul (F32.of_int inHeight) customTopPos in
    let left :=
      if F32.gtb (F32.add customLeft (F32.of_int outWidth)) (F32.of_int inWidth)
      then GoInt.sub inWidth outWidth
      else F32.to_int customLeft in
    let top :=
      if F32.gtb (F32.add customTop (F32.of_int outHeight)) (F32.of_int inHeight)
      then GoInt.sub inHeight outHeight
      else F32.to_int customTop in
    (left, top)
  else
    (GoInt.div (GoInt.add (GoInt.sub inWidth outWidth) 1) 2,
     GoInt.div (GoInt.add (GoInt.sub inHeight outHeight) 1) 2).

Definition vipsExifOrientation (image : Image) : Z := vips_exif_orientation image.

Definition getAngle (angle : Angle) : Angle :=
  let divisor := GoInt.rem angle 90 in
  let angle := if negb (divisor =? 0) then GoInt.sub angle divisor else angle in
  F64.to_int (F64.Min (F64.of_int angle) (F64.of_int 270)).

Definition calculateRotationAndFlip (image : Image) (angle : Angle) : Angle * bool :=
  let rotate := D0 in
  let flip := false in
  if angle >? 0 then (rotate, flip)
  else
    let v := vipsExifOrientation image in
    if v =? 6 then (D90, flip)
    else if v =? 3 then (D180, flip)
    else if v =? 8 then (D270, flip)
    else if v =? 2 then (rotate, true)
    else if v =? 7 then (D90, true)
    else if v =? 4 then (D180, true)
    else if v =? 5 then (D270, true)
    else (rotate, flip).

(** ** [vips.go]: the functions that talk to the engine *)

(** A Go [[]byte] result ([None] is nil) with an [error] ([None] is nil,
    otherwise the text of [errors.New]). *)
Definition BufErr : Type := option bytes * option string.
Definition ImgErr : Type := handle * option string.

Section Pipeline.

Context (E : Engine).

Definition resizeError {L R} : M L R string :=
  s <- vips_error_buffer;;
  vips_error_clear;;;
  val s.

Definition catchVipsError {L R} : M L R string :=
  s <- vips_error_buffer;;
  vips_error_clear;;;
  vips_thread_shutdown;;;
  val s.

Definition vipsRotate (image : handle) (angle : Angle) : M unit ImgErr ImgErr :=
  fun s =>
    let body : M unit ImgErr ImgErr :=
      r <- vips_rotate E image angle;;
      if negb (ret r =? 0) then
        e <- catchVipsError;; return_ (None, Some e)
      else return_ (stored None r, None) in
    (* defer C.g_object_unref(C.gpointer(image)) *)
    with_defer (fun w => mkWorld (error_buffer w) (calls w ++ [Cg_object_unref image]))
               body s.

Definition vipsFlip (image : handle) (direction : Direction) : M unit ImgErr ImgErr :=
  fun s =>
    let body : M unit ImgErr ImgErr :=
      r <- vips_flip_bridge E image direction;;
      if negb (ret r =? 0) then
        e <- catchVipsError;; return_ (None, Some e)
      else return_ (stored None r, None) in
    with_defer (fun w => mkWorld (error_buffer w) (calls w ++ [Cg_object_unref image]))
               body s.

(** The caller's [o] is a copy; [oAfterExif] is that copy after the
    first block. *)
Definition oAfterExif (image : Image) (o : Options) : Options :=
  if negb (NoAutoRotate o) then
    let '(rotation, flip) := calculateRotationAndFlip image (Rotate o) in
    let o := if flip then set_Flip o flip else o in
    if (rotation >? D0) && (Rotate o =? 0) then set_Rotate o rotation else o
  else o.

Definition rotateAndFlipImage (image : Image) (o : Options) : M unit ImgErr ImgErr :=
  let o := oAfterExif image o in
  r <- (if Rotate o >? 0
        then call (vipsRotate (Some image) (getAngle (Rotate o))) tt
        else val (Some image, None));;
  let direction :=
    if Flip o then HORIZONTAL else if Flop o then VERTICAL else -1 in
  r <- (if negb (direction =? -1)
        then call (vipsFlip (fst r) direction) tt
        else val r);;
  return_ r.

(** *** [Resize] *)

(** The locals of [Resize] that keep their value from one block to the
    next: the by-value parameter [o] and the two image variables. *)
Record Locals : Type := mkLocals {
  l_o : Options;
  l_image : handle;
  l_tmpImage : handle
}.

Definition get_o {R} : M Locals R Options := l <- get_local;; val (l_o l).
Definition set_o {R} (o : Options) : M Locals R unit :=
  l <- get_local;; put_local (mkLocals o (l_image l) (l_tmpImage l)).
Definition get_image {R} : M Locals R handle := l <- get_local;; val (l_image l).
Definition set_image {R} (h : handle) : M Locals R unit :=
  l <- get_local;; put_local (mkLocals (l_o l) h (l_tmpImage l)).
Definition get_tmpImage {R} : M Locals R handle :=
  l <- get_local;; val (l_tmpImage l).
Definition set_tmpImage {R} (h : handle) : M Locals R unit :=
  l <- get_local;; put_local (mkLocals (l_o l) (l_image l) h).

(** [int(image.Xsize)]: reading through a nil pointer panics. *)
Definition image_Xsize {R} : M Locals R Z :=
  h <- get_image;;
  match h with
  | Some i => val (Xsize i)
  | None => panic "invalid memory address or nil pointer dereference"
  end.

Definition image_Ysize {R} : M Locals R Z :=
  h <- get_image;;
  match h with
  | Some i => val (Ysize i)
  | None => panic "invalid memory address or nil pointer dereference"
  end.

(** [err := C.op(image, &tmpImage, ...); C.g_object_unref(image);
    image = tmpImage], the step every transform ends with. *)
Definition replace_image {R} (r : CRet Image) : M Locals R unit :=
  t <- get_tmpImage;;
  set_tmpImage (stored t r);;;
  h <- get_image;;
  g_object_unref h;;;
  t <- get_tmpImage;;
  set_image t.

Definition unknown_format : BufErr := (None, Some "unknown image format").

(** Lines 139-150: detect the file type. *)
Definition Resize_detect (buf : Slice.t) : M Locals BufErr ImageType :=
  b <- or_panic "slice bounds out of range" (Slice.slice buf 0 2);;
  if Slice.Equal b MARKER_JPEG then val JPEG
  else
    b <- or_panic "slice bounds out of range" (Slice.slice buf 0 2);;
    if Slice.Equal b MARKER_PNG then val PNG
    else
      b <- or_panic "slice bounds out of range" (Slice.slice buf 0 4);;
      if Slice.Equal b MARKER_RIFF then
        b <- or_panic "slice bounds out of range" (Slice.slice buf 8 12);;
        if Slice.Equal b MARKER_WEBP then val WEBP
        else return_ unknown_format
      else return_ unknown_format.

(** Lines 155-163: feed the buffer to the loader; the status of the
    load is not looked at. *)
Definition Resize_feed (typ : ImageType) (buf : Slice.t) : M Locals BufErr unit :=
  if typ =? JPEG then
    p <- or_panic "index out of range" (Slice.addr0 buf);;
    r <- vips_jpegload_buffer_seq E p;;
    h <- get_image;; set_image (stored h r)
  else if typ =? PNG then
    p <- or_panic "index out of range" (Slice.addr0 buf);;
    r <- vips_pngload_buffer_seq E p;;
    h <- get_image;; set_image (stored h r)
  else if typ =? WEBP then
    p <- or_panic "index out of range" (Slice.addr0 buf);;
    r <- vips_webpload_buffer_custom E p;;
    h <- get_image;; set_image (stored h r)
  else val tt.

(** Lines 166-169: the deferred cleanup. *)
Definition Resize_cleanup (w : World) : World :=
  mkWorld "" (calls w ++ [Cthread_shutdown; Cerror_clear]).

(** Lines 183-207: image calculations. *)
Definition Resize_calculations (inWidth inHeight : Z) (o : Options)
    : F64.float64 * Options :=
  if (Width o >? 0) && (Height o >? 0) then
    let xf := F64.div (F64.of_int inWidth) (F64.of_int (Width o)) in
    let yf := F64.div (F64.of_int inHeight) (F64.of_int (Height o)) in
    (if Crop o then F64.Min xf yf else F64.Max xf yf, o)
  else if Width o >? 0 then
    let factor := F64.div (F64.of_int inWidth) (F64.of_int (Width o)) in
    (factor,
     set_Height o (F64.to_int (F64.Floor (F64.div (F64.of_int inHeight) factor))))
  else if Height o >? 0 then
    let factor := F64.div (F64.of_int inHeight) (F64.of_int (Height o)) in
    (factor,
     set_Width o (F64.to_int (F64.Floor (F64.div (F64.of_int inWidth) factor))))
  else
    (F64.of_int 1, set_Height (set_Width o inWidth) inHeight).

(** Lines 211-215: the integral shrink. *)
Definition Resize_shrink (factor : F64.float64) : Z :=
  let shrink := F64.to_int (F64.Floor factor) in
  if shrink <? 1 then 1 else shrink.

(** The geometry the planner has settled on so far. *)
Record Plan : Type := mkPlan {
  p_factor : F64.float64;
  p_shrink : Z;
  p_residual : F64.float64;
  p_o : Options
}.

(** Lines 220-229: do not enlarge. *)
Definition Resize_enlarge_guard (inWidth inHeight : Z) (p : Plan) : Plan :=
  let o := p_o p in
  if negb (Enlarge o) then
    if (inWidth <? Width o) && (inHeight <? Height o) then
      mkPlan (F64.of_int 1) 1 (F64.of_int 0)
             (set_Height (set_Width o inWidth) inHeight)
    else p
  else p.

(** Lines 233-247: libjpeg shrink-on-load.  Gives the new [factor] and
    [shrinkOnLoad]. *)
Definition Resize_shrink_on_load (typ : ImageType) (shrink : Z)
    (factor : F64.float64) : F64.float64 * Z :=
  let shrinkOnLoad := 1 in
  if (typ =? JPEG) && (shrink >=? 2) then
    if shrink >=? 8 then (F64.div factor (F64.of_int 8), 8)
    else if shrink >=? 4 then (F64.div factor (F64.of_int 4), 4)
    else if shrink >=? 2 then (F64.div factor (F64.of_int 2), 2)
    else (factor, shrinkOnLoad)
  else (factor, shrinkOnLoad).

(** Lines 183-247 together: from the input size to the plan and
    [shrinkOnLoad]. *)
Definition Resize_plan (typ : ImageType) (inWidth inHeight : Z) (o : Options)
    : Plan * Z :=
  let '(factor, o) := Resize_calculations inWidth inHeight o in
  let shrink := Resize_shrink factor in
  let residual := F64.div (F64.of_int shrink) factor in
  let p := Resize_enlarge_guard inWidth inHeight (mkPlan factor shrink residual o) in
  let '(factor, shrinkOnLoad) := Resize_shrink_on_load typ (p_shrink p) (p_factor p) in
  (mkPlan factor (p_shrink p) (p_residual p) (p_o p), shrinkOnLoad).

(** Lines 249-262: reload with shrink-on-load. *)
Definition Resize_reload (buf : Slice.t) (p : Plan) (shrinkOnLoad : Z)
    : M Locals BufErr Plan :=
  if shrinkOnLoad >? 1 then
    let factor := F64.Max (p_factor p) (F64.of_int 1) in
    let shrink := F64.to_int (F64.Floor factor) in
    let residual := F64.div (F64.of_int shrink) factor in
    b <- or_panic "index out of range" (Slice.addr0 buf);;
    r <- vips_jpegload_buffer_shrink E b (GoInt.to_cint shrinkOnLoad);;
    replace_image r;;;
    if negb (ret r =? 0) then
      e <- resizeError;; return_ (None, Some e)
    else val (mkPlan factor shrink residual (p_o p))
  else val p.

(** Lines 264-285: the integral shrink, and the residual from the
    size the shrink really gave. *)
Definition Resize_do_shrink (p : Plan) : M Locals BufErr Plan :=
  if p_shrink p >? 1 then
    h <- get_image;;
    r <- vips_shrink_0 E h (F64.of_int (p_shrink p)) (F64.of_int (p_shrink p));;
    replace_image r;;;
    if negb (ret r =? 0) then
      e <- resizeError;; return_ (None, Some e)
    else
      shrunkWidth <- image_Xsize;;
      shrunkHeight <- image_Ysize;;
      let o := p_o p in
      let residualx := F64.div (F64.of_int (Width o)) (F64.of_int shrunkWidth) in
      let residualy := F64.div (F64.of_int (Height o)) (F64.of_int shrunkHeight) in
      let residual :=
        if Crop o then F64.Max residualx residualy
        else F64.Min residualx residualy in
      val (mkPlan (p_factor p) (p_shrink p) residual o)
  else val p.

(** Lines 287-307: the affine step with the remaining float part. *)
Definition Resize_affine (p : Plan) : M Locals BufErr unit :=
  if negb (F64.eqb (p_residual p) (F64.of_int 0)) then
    let is_ := Interpolator_String (Interpolator (p_o p)) in
    log (Cinterpolate_new is_);;;
    h <- get_image;;
    r <- vips_affine_interpolator E h (p_residual p) (F64.of_int 0)
           (F64.of_int 0) (p_residual p) is_;;
    replace_image r;;;
    log (Cg_object_unref_interpolate is_);;;
    if negb (ret r =? 0) then
      e <- resizeError;; return_ (None, Some e)
    else val tt
  else val tt.

(** Lines 309-339: crop or embed. *)
Definition Resize_crop_embed : M Locals BufErr unit :=
  affinedWidth <- image_Xsize;;
  affinedHeight <- image_Ysize;;
  o <- get_o;;
  if negb (affinedWidth =? Width o) || negb (affinedHeight =? Height o) then
    if Crop o then
      let lt :=
        sharpCalcCrop affinedWidth affinedHeight (Width o) (Height o)
                      (LeftPos o) (TopPos o) (Gravity o) in
      let left := fst lt in
      let top := snd lt in
      let o :=
        set_Width o (F64.to_int (F64.Min (F64.of_int affinedWidth)
                                         (F64.of_int (Width o)))) in
      let o :=
        set_Height o (F64.to_int (F64.Min (F64.of_int affinedHeight)
                                          (F64.of_int (Height o)))) in
      set_o o;;;
      h <- get_image;;
      r <- vips_extract_area_0 E h (GoInt.to_cint left) (GoInt.to_cint top)
             (GoInt.to_cint (Width o)) (GoInt.to_cint (Height o));;
      replace_image r;;;
      if negb (ret r =? 0) then
        e <- resizeError;; return_ (None, Some e)
      else val tt
    else if Embed o then
      let left := GoInt.div (GoInt.sub (Width o) affinedWidth) 2 in
      let top := GoInt.div (GoInt.sub (Height o) affinedHeight) 2 in
      h <- get_image;;
      r <- vips_embed_extend E h (GoInt.to_cint left) (GoInt.to_cint top)
             (GoInt.to_cint (Width o)) (GoInt.to_cint (Height o))
             (GoInt.to_cint (Extend o));;
      replace_image r;;;
      if negb (ret r =? 0) then
        e <- resizeError;; return_ (None, Some e)
      else val tt
    else val tt
  else val tt.

(** Lines 346-357 and 599-606: save in the requested format; the
    status of the save is not looked at. *)
Definition save {L R} (h : handle) (o : Options) : M L R (CRet bytes) :=
  if Savetype o =? WEBP then
    vips_webpsave_custom E h (GoInt.to_cint (Quality o))
  else if Savetype o =? PNG then
    vips_pngsave_custom E h 1 (GoInt.to_cint (Quality o)) 0
  else
    vips_jpegsave_custom E h 1 (GoInt.to_cint (Quality o)) 0.

(** Lines 341-365: colour space, save, hand the bytes back. *)
Definition Resize_finish : M Locals BufErr BufErr :=
  h <- get_image;;
  r <- vips_colourspace_0 E h;;
  replace_image r;;;
  h <- get_image;;
  o <- get_o;;
  r <- save h o;;
  g_object_unref h;;;
  buf <- GoBytes r;;
  return_ (Some buf, None).

(** Lines 171-365, the part that runs under the deferred cleanup. *)
Definition Resize_pipeline (typ : ImageType) (buf : Slice.t) : M Locals BufErr BufErr :=
  o <- get_o;;
  (if Quality o =? 0 then set_o (set_Quality o 100) else val tt);;;
  inWidth <- image_Xsize;;
  inHeight <- image_Ysize;;
  o <- get_o;;
  let '(p, shrinkOnLoad) := Resize_plan typ inWidth inHeight o in
  set_o (p_o p);;;
  p <- Resize_reload buf p shrinkOnLoad;;
  p <- Resize_do_shrink p;;
  Resize_affine p;;;
  Resize_crop_embed;;;
  Resize_finish.

Definition Resize_body (buf : Slice.t) : M Locals BufErr BufErr :=
  typ <- Resize_detect buf;;
  Resize_feed typ buf;;;
  with_defer Resize_cleanup (Resize_pipeline typ buf).

(** [Resize(buf, o)]: the results, the locals as the call left them and
    the world after it. *)
Definition Resize (buf : Slice.t) (o : Options) (w : World)
    : Result BufErr * Locals * World :=
  run (Resize_body buf) (mkLocals o None None) w.

(** *** [AutoRotate] *)

Definition AutoRotate_cleanup (w : World) : World :=
  mkWorld "" (calls w ++ [Cthread_shutdown; Cerror_clear]).

Definition AutoRotate_body (file : string) : M Locals BufErr BufErr :=
  image <- vips_load_from_file E file;;
  set_image image;;;
  with_defer AutoRotate_cleanup (
    match image with
    | None => e <- catchVipsError;; return_ (None, Some e)
    | Some i =>
        let '(rotate, flip) := calculateRotationAndFlip i 0 in
        if (rotate =? 0) && negb flip then return_ (None, None)
        else
          r <- vips_autorotate E image;;
          t <- get_tmpImage;;
          set_tmpImage (stored t r);;;
          if negb (ret r =? 0) then
            e <- catchVipsError;; return_ (None, Some e)
          else
            o <- get_o;;
            (if Quality o =? 0 then set_o (set_Quality o 100) else val tt);;;
            o <- get_o;;
            t <- get_tmpImage;;
            r <- save t o;;
            g_object_unref t;;;
            buf <- GoBytes r;;
            return_ (Some buf, None)
    end).

Definition AutoRotate (file : string) (o : Options) (w : World)
    : Result BufErr * Locals * World :=
  run (AutoRotate_body file) (mkLocals o None None) w.

End Pipeline.

(** ** The calls a run adds *)

Definition is_flip (direction : Direction) (c : Call) : bool :=
  match c with
  | Cflip _ d => d =? direction
  | _ => false
  end.

Definition is_rot (c : Call) : bool :=
  match c with
  | Crot _ _ => true
  | _ => false
  end.

(** The pure part of [GoBytes]. *)
Definition GoBytes_of (r : CRet bytes) : Result bytes :=
  let data := match out r with Some b => b | None => [] end in
  let n := GoInt.to_cint (Z.of_nat (length data)) in
  if n <? 0 then Panicked "gobytes: length out of range"
  else Returned (firstn (Z.to_nat n) data).

(** ** The words of the specification, for comparison *)

Module Spec.

(** Section 4.1: JPEG is [FF D8] in the first two bytes, PNG is [89 50],
    WEBP is [RIFF] in bytes 0-3 and [WEBP] in bytes 8-11, anything else
    is unknown. *)
Definition classify (b : bytes) : ImageType :=
  if Slice.bytes_eqb (firstn 2 b) [Byte.xff; Byte.xd8] then JPEG
  else if Slice.bytes_eqb (firstn 2 b) [Byte.x89; Byte.x50] then PNG
  else if Slice.bytes_eqb (firstn 4 b) [Byte.x52; Byte.x49; Byte.x46; Byte.x46]
          && Slice.bytes_eqb (firstn 4 (skipn 8 b))
                             [Byte.x57; Byte.x45; Byte.x42; Byte.x50]
  then WEBP
  else UNKNOWN.

(** Section 4.4: the orientation table. *)
Definition resolveOrientation (v : Z) : Angle * bool :=
  match v with
  | 1 => (0, false)
  | 2 => (0, true)
  | 3 => (180, false)
  | 4 => (180, true)
  | 5 => (270, true)
  | 6 => (90, false)
  | 7 => (90, true)
  | 8 => (270, false)
  | _ => (0, false)
  end.

(** Section 4.2, step 4: the shrink-on-load factor for a JPEG. *)
Definition shrinkOnLoad (shrink : Z) : Z :=
  if 8 <=? shrink then 8
  else if 4 <=? shrink then 4
  else if 2 <=? shrink then 2
  else 1.

(** Section 4.3: the crop origin per gravity, in unbounded integers;
    [/] is Go's truncating division. *)
Definition resolveCrop (inW inH outW outH : Z) (gravity : Z) : Z * Z :=
  if gravity =? NORTH then ((inW - outW + 1) ÷ 2, 0)
  else if gravity =? SOUTH then ((inW - outW + 1) ÷ 2, inH - outH)
  else if gravity =? EAST then (inW - outW, (inH - outH + 1) ÷ 2)
  else if gravity =? WEST then (0, (inH - outH + 1) ÷ 2)
  else ((inW - outW + 1) ÷ 2, (inH - outH + 1) ÷ 2).

(** Section 4.4: round down to a multiple of 90 and cap at 270. *)
Definition normalizeAngle (angle : Z) : Z := Z.min (90 * (angle / 90)) 270.

End Spec.

(** ** Passing [Options] by value

    The caller's variables live in a store.  A call of [Resize(buf, opts)]
    copies the caller's value into a fresh cell, the callee's parameter;
    what [Resize] assigns to [o] goes to that cell, which is dropped when
    the call returns. *)

Definition Resize_call (E : Engine) (st : gmap positive Options) (a : positive)
    (buf : Slice.t) (w : World)
    : option (Result BufErr * gmap positive Options * World) :=
  match st !! a with
  | None => None
  | Some opts =>
      let l := fresh (dom st) in
      let st := <[l := opts]> st in
      let '(res, locals, w') := Resize E buf opts w in
      let st := <[l := l_o locals]> st in
      Some (res, delete l st, w')
  end.

(** ** An engine to run the code on

    [picture] is what every load decodes to; loads and the autorotate
    operation can be made to fail. *)

Module Demo.

Definition scaled (i : Image) (w h : Z) : Image :=
  mkImage w h (exif_ifd0_Orientation i).

Definition fmul (x y : F64.float64) : F64.float64 := SFmul F64.prec F64.emax x y.

Definition on_image (h : handle) (f : Image -> Image) : CRet Image :=
  match h with
  | Some i => mkCRet 0 (Some (f i)) ""
  | None => mkCRet (-1) None "vips: null image"
  end.

Definition jpeg_bytes : bytes := [Byte.xff; Byte.xd8; Byte.xff; Byte.xe0].
Definition png_bytes : bytes := [Byte.x89; Byte.x50; Byte.x4e; Byte.x47].
Definition webp_bytes : bytes := [Byte.x52; Byte.x49; Byte.x46; Byte.x46].

Definition saved (h : handle) (b : bytes) : CRet bytes :=
  match h with
  | Some _ => mkCRet 0 (Some b) ""
  | None => mkCRet (-1) None "vips: null image"
  end.

Definition load (picture : Image) (ok : bool) (reason : string) : CRet Image :=
  if ok then mkCRet 0 (Some picture) "" else mkCRet (-1) None reason.

Definition turned (i : Image) (quarter : Z) : Image :=
  if Z.odd quarter then mkImage (Ysize i) (Xsize i) None
  else mkImage (Xsize i) (Ysize i) None.

Definition engine (picture : Image) (load_ok autorot_ok : bool) : Engine :=
  {| vips_jpegload_buffer := fun _ m =>
       match m with
       | AccessSequential => load picture load_ok "VipsJpeg: Not a JPEG file"
       | ShrinkBy n =>
           load (scaled picture (Xsize picture ÷ n) (Ysize picture ÷ n))
                load_ok "VipsJpeg: Not a JPEG file"
       end;
     vips_pngload_buffer := fun _ => load picture load_ok "vipspng: not a PNG file";
     vips_webpload_buffer := fun _ => load picture load_ok "webp: unable to parse";
     vips_shrink := fun h x y =>
       on_image h (fun i => scaled i (Xsize i ÷ F64.to_int x) (Ysize i ÷ F64.to_int y));
     vips_affine := fun h a _ _ d _ =>
       on_image h (fun i =>
         scaled i (F64.to_int (F64.Floor (fmul (F64.of_int (Xsize i)) a)))
                  (F64.to_int (F64.Floor (fmul (F64.of_int (Ysize i)) d))));
     vips_extract_area := fun h _ _ width height =>
       on_image h (fun i => scaled i width height);
     vips_embed := fun h _ _ width height _ =>
       on_image h (fun i => scaled i width height);
     vips_colourspace := fun h => on_image h (fun i => i);
     vips_jpegsave_buffer := fun h _ _ _ => saved h jpeg_bytes;
     vips_webpsave_buffer := fun h _ => saved h webp_bytes;
     vips_pngsave_buffer := fun h _ => saved h png_bytes;
     vips_rot := fun h quarter => on_image h (fun i => turned i quarter);
     vips_flip := fun h _ => on_image h (fun i => i);
     vips_autorot := fun h =>
       if autorot_ok then
         on_image h (fun i =>
           turned i (fst (calculateRotationAndFlip i 0) ÷ 90))
       else mkCRet (-1) None "autorot: unable to rotate";
     vips_image_new_from_file := fun _ =>
       if load_ok then Some picture else None |}.

Definition no_options : Options :=
  mkOptions 0 0 false false EXTEND_BLACK false BICUBIC CENTRE 0
            (S754_zero false) (S754_zero false) UNKNOWN false D0 false false.

Definition photo : Image := mkImage 4000 3000 None.
Definition thumb : Image := mkImage 100 100 None.
Definition mirrored : Image := mkImage 640 480 (Some "2").
Definition sideways : Image := mkImage 640 480 (Some "6").

(** Twelve bytes with a JPEG signature. *)
Definition jpeg_buf : Slice.t :=
  Slice.of_list [Byte.xff; Byte.xd8; Byte.xff; Byte.xe0; Byte.x00; Byte.x10;
                 Byte.x4a; Byte.x46; Byte.x49; Byte.x46; Byte.x00; Byte.x01].

(** Twelve bytes with a PNG signature. *)
Definition png_buf : Slice.t :=
  Slice.of_list [Byte.x89; Byte.x50; Byte.x4e; Byte.x47; Byte.x0d; Byte.x0a;
                 Byte.x1a; Byte.x0a; Byte.x00; Byte.x00; Byte.x00; Byte.x0d].

(** The two zero bytes of the specification's scenario C. *)
Definition zeros_buf : Slice.t := Slice.of_list [Byte.x00; Byte.x00].

(** Twelve zero bytes. *)
Definition zeros12_buf : Slice.t := Slice.of_list (repeat Byte.x00 12).

End Demo.

(** ** Names for what single steps of [Resize] and [AutoRotate] get back *)

(** The load [Resize] makes for a buffer of type [typ] (lines 156-163). *)
Definition first_load (E : Engine) (typ : ImageType) (b : bytes) : CRet Image :=
  if typ =? JPEG then vips_jpegload_buffer E b AccessSequential
  else if typ =? PNG then vips_pngload_buffer E b
  else vips_webpload_buffer E b.

(** That load as it shows in the list of calls. *)
Definition first_load_call (typ : ImageType) (b : bytes) : Call :=
  if typ =? JPEG then Cjpegload_buffer b AccessSequential
  else if typ =? PNG then Cpngload_buffer b
  else Cwebpload_buffer b.

(** What the save call of [save] gets back from the engine. *)
Definition save_result (E : Engine) (h : handle) (o : Options) : CRet bytes :=
  if Savetype o =? WEBP then vips_webpsave_buffer E h (GoInt.to_cint (Quality o))
  else if Savetype o =? PNG then vips_pngsave_buffer E h 0
  else vips_jpegsave_buffer E h 1 (GoInt.to_cint (Quality o)) 0.

(** The save call as it shows in the list of calls. *)
Definition save_call (h : handle) (o : Options) : Call :=
  if Savetype o =? WEBP then Cwebpsave_buffer h (GoInt.to_cint (Quality o))
  else if Savetype o =? PNG then Cpngsave_buffer h 0
  else Cjpegsave_buffer h 1 (GoInt.to_cint (Quality o)) 0.

(** [o.Quality] after the default is filled in. *)
Definition with_default_quality (o : Options) : Options :=
  if Quality o =? 0 then set_Quality o 100 else o.

(** A Go function's results from the results of [C.GoBytes]. *)
Definition buffer_result (g : Result bytes) : Result BufErr :=
  match g with
  | Returned b => Returned (Some b, None)
  | Panicked why => Panicked why
  end.

(** ** Two predicates on floats, for [getAngle] *)

(** A float at or above 2^9: plus infinity, or finite and positive with
    an exponent above the one of 270. *)
Definition above_270 (x : F64.float64) : Prop :=
  x = S754_infinity false \/
  exists m e, x = S754_finite false m e /\ -44 < e.

(** [int(math.Min(float64(n), 270))] is the integer minimum at [n]. *)
Definition min_270_agrees (n : nat) : bool :=
  F64.to_int (F64.Min (F64.of_int (Z.of_nat n)) (F64.of_int 270))
  =? Z.min (Z.of_nat n) 270.

(** ** What a body may do and may give back *)

(** Whatever the state, the body only adds calls, and every call it adds
    passes [P]. *)
Definition emits {L R A} (P : Call -> bool) (c : M L R A) : Prop :=
  forall s, exists new,
    calls (snd (snd (c s))) = calls (snd s) ++ new /\ forallb P new = true.

(** Whatever the state, a value the body goes on with satisfies [QV] and
    results it leaves the function with satisfy [QR]. *)
Definition yields {L R A} (QV : A -> Prop) (QR : R -> Prop) (c : M L R A) : Prop :=
  forall s,
    match fst (c s) with
    | Val a => QV a
    | Return r => QR r
    | Panic _ => True
    end.

(** The native calls [Resize] can make: loads from a buffer, the
    transforms, colour space, the saves and the releases; no rotation, no
    flip, no load from a file. *)
Definition resize_call (c : Call) : bool :=
  match c with
  | Crot _ _ | Cflip _ _ | Cautorot _ | Cimage_new_from_file _ => false
  | _ => true
  end.

(** A buffer without an error, or an error without a buffer. *)
Definition buffer_xor_error (r : BufErr) : Prop :=
  (exists b, r = (Some b, None)) \/ (exists e, r = (None, Some e)).

(** Any flip call. *)
Definition is_any_flip (c : Call) : bool :=
  match c with
  | Cflip _ _ => true
  | _ => false
  end.

(** A rotation or a flip. *)
Definition is_operation (c : Call) : bool :=
  match c with
  | Crot _ _ | Cflip _ _ => true
  | _ => false
  end.

(** Any release of an image. *)
Definition is_unref (c : Call) : bool :=
  match c with
  | Cg_object_unref _ => true
  | _ => false
  end.

(** An engine that is [E] but for a rotation that always fails. *)
Definition without_rot (E : Engine) : Engine :=
  mkEngine (vips_jpegload_buffer E) (vips_pngload_buffer E)
    (vips_webpload_buffer E) (vips_shrink E) (vips_affine E)
    (vips_extract_area E) (vips_embed E) (vips_colourspace E)
    (vips_jpegsave_buffer E) (vips_webpsave_buffer E) (vips_pngsave_buffer E)
    (fun _ _ => mkCRet (-1) None "vips_rot: unable to rotate")
    (vips_flip E) (vips_autorot E) (vips_image_new_from_file E).

(** Two option values that agree on every field but [Width] and
    [Height]. *)
Definition same_but_size (o1 o2 : Options) : Prop :=
  Crop o1 = Crop o2 /\ Enlarge o1 = Enlarge o2 /\ Extend o1 = Extend o2 /\
  Embed o1 = Embed o2 /\ Interpolator o1 = Interpolator o2 /\
  Gravity o1 = Gravity o2 /\ Quality o1 = Quality o2 /\
  LeftPos o1 = LeftPos o2 /\ TopPos o1 = TopPos o2 /\
  Savetype o1 = Savetype o2 /\ NoAutoRotate o1 = NoAutoRotate o2 /\
  Rotate o1 = Rotate o2 /\ Flip o1 = Flip o2 /\ Flop o1 = Flop o2.

Definition is_panic {R A} (x : Outcome R A) : bool :=
  match x with
  | Panic _ => true
  | _ => false
  end.

(** ** [Initialize] and [Shutdown]

    The package keeps one flag, [initialized].  [vips_init] stands for
    the status [C.vips_initialize()] gives at this call. *)

Inductive LifecycleCall : Type :=
| LLockOSThread
| LUnlockOSThread
| Lvips_initialize
| Lvips_shutdown
| Lvips_concurrency_set (n : Z)
| Lvips_cache_set_max_mem (n : Z)
| Lvips_cache_set_max (n : Z).

Record Process : Type := mkProcess {
  initialized : bool;
  lifecycle : list LifecycleCall
}.

(** A process before the package's [init] has run. *)
Definition process0 : Process := mkProcess false [].

Definition Initialize (vips_init : Z) (p : Process) : Result unit * Process :=
  if initialized p then (Returned tt, p)
  else
    let calls1 := lifecycle p ++ [LLockOSThread; Lvips_initialize] in
    if negb (vips_init =? 0) then
      (Panicked "unable to start vips!",
       mkProcess (initialized p) (calls1 ++ [Lvips_shutdown; LUnlockOSThread]))
    else
      (Returned tt,
       mkProcess true
         (calls1 ++ [Lvips_concurrency_set 1;
                     Lvips_cache_set_max_mem (100 * 1048576);
                     Lvips_cache_set_max 500;
                     LUnlockOSThread])).

Definition Shutdown (p : Process) : Process :=
  if negb (initialized p) then p
  else mkProcess false (lifecycle p ++ [Lvips_shutdown]).

(** [func init() { Initialize() }] *)
Definition init (vips_init : Z) (p : Process) : Result unit * Process :=
  Initialize vips_init p.

(** * Properties *)

(** ** The monad computes *)

Lemma save_spec (E : Engine) {L R} (h : handle) (o : Options) (l : L) (w : World) :
  @save E L R h o (l, w) =
  (Val (save_result E h o),
   (l, mkWorld (error_buffer w +:+ msg (save_result E h o))
               (calls w ++ [save_call h o]))).
Proof.
  unfold save, save_result, save_call.
  destruct (Savetype o =? WEBP); [reflexivity|].
  destruct (Savetype o =? PNG); reflexivity.
Qed.

Lemma GoBytes_spec {L R} (r : CRet bytes) (s : L * World) :
  @GoBytes L R r s =
  (match GoBytes_of r with
   | Returned b => Val b
   | Panicked why => Panic why
   end, s).
Proof.
  unfold GoBytes, GoBytes_of.
  destruct (_ <? 0); reflexivity.
Qed.

(** ** C2: the orientation table *)

(** C2.  With no explicit rotation (angle 0), [calculateRotationAndFlip]
    returns, for the EXIF orientation value [v] of the image, exactly the
    pair of the specification's table: 1->(0,false), 2->(0,true),
    3->(180,false), 4->(180,true), 5->(270,true), 6->(90,false),
    7->(90,true), 8->(270,false), and (0,false) for 0 and every other
    value. *)
Theorem calculateRotationAndFlip_table (image : Image) :
  calculateRotationAndFlip image 0 =
  Spec.resolveOrientation (vipsExifOrientation image).
Proof.
  unfold calculateRotationAndFlip.
  generalize (vipsExifOrientation image) as v.
  intros [|p|p]; [reflexivity| |reflexivity].
  destruct p as [p|p|]; [| |reflexivity];
    (destruct p as [p|p|]; [| |reflexivity]);
    (destruct p as [p|p|]; [| |reflexivity]);
    (destruct p as [p|p|]; reflexivity).
Qed.

(** Every row of the table is met by an image: the header string is what
    libvips prints for the tag, the number first. *)
Lemma orientation_rows_reachable :
  map (fun s => vipsExifOrientation (mkImage 1 1 (Some s)))
      ["1"; "2 (Top-right, Short, 1 components, 2 bytes)"; "3"; "4"; "5";
       "6 (Right-top, Short, 1 components, 2 bytes)"; "7"; "8"; "0"; "9"; ""]
  = [1; 2; 3; 4; 5; 6; 7; 8; 0; 9; 0].
Proof. reflexivity. Qed.

(** ** C4: shrink-on-load *)

(** C4.  The shrink-on-load factor is, for a JPEG, 8 when the integral
    shrink is at least 8, else 4 when it is at least 4, else 2 when it is
    at least 2, and 1 (none) when the shrink is 1 or the input is not a
    JPEG; when one is selected [factor] is divided by it.  The planner
    applies this to the shrink left by the enlarge guard, and with factor
    1 the reload step does nothing. *)
Theorem Resize_shrink_on_load_selection
    (typ : ImageType) (shrink : Z) (factor : F64.float64) :
  let n := if typ =? JPEG then Spec.shrinkOnLoad shrink else 1 in
  Resize_shrink_on_load typ shrink factor =
    (if 1 <? n then F64.div factor (F64.of_int n) else factor, n)
  /\ (forall inWidth inHeight o,
        let pn := Resize_plan typ inWidth inHeight o in
        snd pn = if typ =? JPEG then Spec.shrinkOnLoad (p_shrink (fst pn)) else 1)
  /\ (forall E buf p s, Resize_reload E buf p 1 s = (Val p, s)).
Proof.
  assert (Hsel : forall sh f,
    Resize_shrink_on_load typ sh f =
    (if 1 <? (if typ =? JPEG then Spec.shrinkOnLoad sh else 1)
     then F64.div f (F64.of_int (if typ =? JPEG then Spec.shrinkOnLoad sh else 1))
     else f,
     if typ =? JPEG then Spec.shrinkOnLoad sh else 1)).
  { intros sh f. unfold Resize_shrink_on_load, Spec.shrinkOnLoad.
    destruct (typ =? JPEG); [|reflexivity]. cbn [andb].
    rewrite !Z.geb_leb.
    destruct (8 <=? sh) eqn:H8.
    - assert (H2 : (2 <=? sh) = true) by lia. rewrite H2. reflexivity.
    - destruct (4 <=? sh) eqn:H4.
      + assert (H2 : (2 <=? sh) = true) by lia. rewrite H2. reflexivity.
      + destruct (2 <=? sh) eqn:H2; reflexivity. }
  cbv zeta. split; [apply Hsel|]. split.
  - intros inWidth inHeight o. unfold Resize_plan.
    destruct (Resize_calculations inWidth inHeight o) as [f o'].
    rewrite Hsel. reflexivity.
  - intros E buf p s. reflexivity.
Qed.

(** ** C5: the crop origin *)

Lemma wrap_id (z : Z) : GoInt.is_int z -> GoInt.wrap z = z.
Proof.
  unfold GoInt.is_int, GoInt.int_min, GoInt.int_max, GoInt.wrap. intros H.
  rewrite Z.mod_small; lia.
Qed.

Lemma half_bounds (d : Z) : 0 <= d -> 0 <= (d + 1) ÷ 2 <= d.
Proof.
  intros Hd. rewrite Z.quot_div_nonneg by lia.
  split; [apply Z.div_pos; lia|].
  destruct (Z.eq_dec d 0) as [->|Hne]; [reflexivity|].
  apply Z.div_le_upper_bound; lia.
Qed.

(** The centred offset as the Go code computes it, when the sum does not
    leave [int]. *)
Lemma centre_offset (i o : Z) :
  GoInt.is_int i -> 0 <= o <= i -> i - o < GoInt.int_max ->
  GoInt.div (GoInt.add (GoInt.sub i o) 1) 2 = (i - o + 1) ÷ 2.
Proof.
  intros Hi Ho Hd. unfold GoInt.is_int, GoInt.int_min, GoInt.int_max in *.
  pose proof (half_bounds (i - o) ltac:(lia)) as Hh.
  unfold GoInt.div, GoInt.add, GoInt.sub.
  rewrite (wrap_id (i - o)) by (unfold GoInt.is_int, GoInt.int_min, GoInt.int_max; lia).
  rewrite (wrap_id (i - o + 1)) by (unfold GoInt.is_int, GoInt.int_min, GoInt.int_max; lia).
  apply wrap_id. unfold GoInt.is_int, GoInt.int_min, GoInt.int_max. lia.
Qed.

Lemma edge_offset (i o : Z) :
  GoInt.is_int i -> 0 <= o <= i -> GoInt.sub i o = i - o.
Proof.
  intros Hi Ho. unfold GoInt.sub. apply wrap_id.
  unfold GoInt.is_int, GoInt.int_min, GoInt.int_max in *. lia.
Qed.

(** Sizes that fit a C [int], as the fields of a [VipsImage] do, are far
    from the top of Go's [int]: the side condition of [centre_offset]
    holds for them. *)
Lemma cint_sizes_do_not_wrap (i o : Z) :
  0 <= o <= i -> i <= 2 ^ 31 - 1 ->
  GoInt.is_int i /\ i - o < GoInt.int_max.
Proof.
  intros Ho Hi. unfold GoInt.is_int, GoInt.int_min, GoInt.int_max. lia.
Qed.

(** C5 (amended).  For [int] sizes with [inWidth >= outWidth >= 0] and
    [inHeight >= outHeight >= 0] whose differences [inWidth - outWidth]
    and [inHeight - outHeight] are below the largest [int], so that
    adding 1 does not wrap, [sharpCalcCrop] returns the formula of its
    gravity:
    CENTRE and every unmatched gravity ((inW-outW+1)/2, (inH-outH+1)/2),
    NORTH ((inW-outW+1)/2, 0), SOUTH ((inW-outW+1)/2, inH-outH),
    EAST (inW-outW, (inH-outH+1)/2), WEST (0, (inH-outH+1)/2); and the
    CENTRE origin keeps the crop inside the image:
    0 <= left, left+outW <= inW, 0 <= top, top+outH <= inH. *)
Theorem sharpCalcCrop_gravity
    (inWidth inHeight outWidth outHeight : Z)
    (customLeftPos customTopPos : F32.float32) (gravity : Z) :
  GoInt.is_int inWidth -> GoInt.is_int inHeight ->
  0 <= outWidth <= inWidth -> 0 <= outHeight <= inHeight ->
  inWidth - outWidth < GoInt.int_max -> inHeight - outHeight < GoInt.int_max ->
  gravity <> CUSTOM ->
  sharpCalcCrop inWidth inHeight outWidth outHeight customLeftPos customTopPos gravity
  = Spec.resolveCrop inWidth inHeight outWidth outHeight gravity
  /\ (let origin :=
        sharpCalcCrop inWidth inHeight outWidth outHeight
                      customLeftPos customTopPos CENTRE in
      0 <= fst origin /\ fst origin + outWidth <= inWidth /\
      0 <= snd origin /\ snd origin + outHeight <= inHeight).
Proof.
  intros HiW HiH HoW HoH HdW HdH Hg.
  pose proof (centre_offset inWidth outWidth HiW HoW HdW) as HcW.
  pose proof (centre_offset inHeight outHeight HiH HoH HdH) as HcH.
  pose proof (edge_offset inWidth outWidth HiW HoW) as HeW.
  pose proof (edge_offset inHeight outHeight HiH HoH) as HeH.
  split.
  - unfold sharpCalcCrop, Spec.resolveCrop.
    rewrite HcW, HcH, HeW, HeH.
    destruct (Z.eqb_spec gravity NORTH) as [->|Hn]; [reflexivity|].
    destruct (Z.eqb_spec gravity EAST) as [->|He]; [reflexivity|].
    destruct (Z.eqb_spec gravity SOUTH) as [->|Hs]; [reflexivity|].
    destruct (Z.eqb_spec gravity WEST) as [->|Hw]; [reflexivity|].
    destruct (Z.eqb_spec gravity CUSTOM) as [->|Hc]; [contradiction|].
    reflexivity.
  - unfold sharpCalcCrop. cbn [Z.eqb CENTRE NORTH EAST SOUTH WEST CUSTOM].
    rewrite HcW, HcH. cbn [fst snd].
    pose proof (half_bounds (inWidth - outWidth) ltac:(lia)).
    pose proof (half_bounds (inHeight - outHeight) ltac:(lia)).
    lia.
Qed.

Lemma sharpCalcCrop_gravity_witness :
  sharpCalcCrop 11 10 4 4 (S754_zero false) (S754_zero false) 77
  = Spec.resolveCrop 11 10 4 4 77
  /\ (let origin :=
        sharpCalcCrop 11 10 4 4 (S754_zero false) (S754_zero false) CENTRE in
      0 <= fst origin /\ fst origin + 4 <= 11 /\
      0 <= snd origin /\ snd origin + 4 <= 10).
Proof.
  apply (sharpCalcCrop_gravity 11 10 4 4 (S754_zero false) (S754_zero false) 77);
    unfold GoInt.is_int, GoInt.int_min, GoInt.int_max, CUSTOM; lia.
Defined.

(** C5, as the claim states it, fails at the top of the [int] range: with
    [inWidth] the largest [int] and [outWidth = 0] the claim's conditions
    hold, but [inWidth - outWidth + 1] wraps to the smallest [int], so the
    CENTRE origin is [left = -2^62] where the formula gives [2^62], and
    [0 <= left] does not hold. *)
Lemma sharpCalcCrop_centre_overflow :
  let origin :=
    sharpCalcCrop GoInt.int_max 10 0 4 (S754_zero false) (S754_zero false)
                  CENTRE in
  (0 <= 0 <= GoInt.int_max /\ 0 <= 4 <= 10)
  /\ origin = (- 2 ^ 62, 3)
  /\ Spec.resolveCrop GoInt.int_max 10 0 4 CENTRE = (2 ^ 62, 3)
  /\ ~ 0 <= fst origin.
Proof.
  assert (H : sharpCalcCrop GoInt.int_max 10 0 4 (S754_zero false)
                (S754_zero false) CENTRE = (- 2 ^ 62, 3))
    by (vm_compute; reflexivity).
  cbv zeta. rewrite H. cbn [fst].
  split; [unfold GoInt.int_max; lia|].
  split; [reflexivity|].
  split; [vm_compute; reflexivity|lia].
Qed.

(** ** C3: explicit rotation and the EXIF flip *)

Lemma oAfterExif_explicit (image : Image) (o : Options) :
  0 < Rotate o -> oAfterExif image o = o.
Proof.
  intros Hr. unfold oAfterExif, calculateRotationAndFlip.
  assert (Hgt : (Rotate o >? 0) = true) by lia.
  rewrite Hgt. destruct (negb (NoAutoRotate o)); reflexivity.
Qed.

(** C3, as the code has it.  With [NoAutoRotate] unset and an explicit
    positive angle, EXIF is not looked at: the options are left as the
    caller gave them, the one rotation made is the caller's angle
    (normalised by [getAngle]), and a horizontal flip is made exactly
    when the caller set [Flip], whatever the EXIF orientation says. *)
Theorem rotateAndFlipImage_explicit_rotation
    (E : Engine) (image : Image) (o : Options) (w : World) :
  NoAutoRotate o = false -> 0 < Rotate o ->
  oAfterExif image o = o
  /\ exists rest,
       calls (snd (snd (rotateAndFlipImage E image o (tt, w))))
       = calls w ++ Crot (Some image) (VipsAngle_of (getAngle (Rotate o))) :: rest
       /\ existsb is_rot rest = false
       /\ existsb (is_flip HORIZONTAL) rest = Flip o.
Proof.
  intros Hn Hr. split; [apply oAfterExif_explicit; exact Hr|].
  unfold rotateAndFlipImage. rewrite (oAfterExif_explicit image o Hr).
  assert (Hgt : (Rotate o >? 0) = true) by lia.
  rewrite Hgt.
  unfold bind, call, vipsRotate, vipsFlip, with_defer, vips_rotate,
    vips_flip_bridge, native, catchVipsError, vips_error_buffer,
    vips_error_clear, vips_thread_shutdown, log, get_world, put_world,
    return_, val, bind.
  cbn [fst snd].
  destruct (ret (vips_rot E (Some image) (VipsAngle_of (getAngle (Rotate o)))) =? 0);
    cbn [negb fst snd calls error_buffer];
    destruct (Flip o); cbn [negb Z.eqb HORIZONTAL VERTICAL fst snd calls error_buffer].
  all: try (destruct (Flop o);
            cbn [negb Z.eqb HORIZONTAL VERTICAL fst snd calls error_buffer]).
  all: repeat match goal with
       | |- context [ret (vips_flip ?e ?h ?d) =? 0] =>
           destruct (ret (vips_flip e h d) =? 0);
           cbn [negb fst snd calls error_buffer]
       end.
  all: rewrite <- ?app_assoc; cbn [app];
       eexists; split; [reflexivity|]; split; reflexivity.
Qed.

Lemma rotateAndFlipImage_explicit_rotation_witness :
  let E := Demo.engine Demo.mirrored true true in
  let o := set_Rotate Demo.no_options 100 in
  oAfterExif Demo.mirrored o = o
  /\ exists rest,
       calls (snd (snd (rotateAndFlipImage E Demo.mirrored o (tt, world0))))
       = calls world0 ++ Crot (Some Demo.mirrored) (VipsAngle_of (getAngle (Rotate o))) :: rest
       /\ existsb is_rot rest = false
       /\ existsb (is_flip HORIZONTAL) rest = Flip o.
Proof.
  apply (rotateAndFlipImage_explicit_rotation
           (Demo.engine Demo.mirrored true true) Demo.mirrored
           (set_Rotate Demo.no_options 100) world0);
    [reflexivity | simpl; lia].
Defined.

(** C3, as the claim states it, fails: the image says "mirrored" (EXIF
    orientation 2, so the table gives flip), the caller asks for 90
    degrees with [NoAutoRotate] unset, and no horizontal flip is made. *)
Lemma rotateAndFlipImage_drops_exif_flip :
  let E := Demo.engine Demo.mirrored true true in
  let o := set_Rotate Demo.no_options 90 in
  NoAutoRotate o = false
  /\ Rotate o <> 0
  /\ snd (calculateRotationAndFlip Demo.mirrored 0) = true
  /\ existsb (is_flip HORIZONTAL)
       (calls (snd (snd (rotateAndFlipImage E Demo.mirrored o (tt, world0))))) = false.
Proof. vm_compute. repeat split; congruence. Qed.

(** ** The format sniffer on buffers of twelve bytes and more *)

Lemma classify_cases (b : bytes) :
  Spec.classify b = JPEG \/ Spec.classify b = PNG \/
  Spec.classify b = WEBP \/ Spec.classify b = UNKNOWN.
Proof.
  unfold Spec.classify.
  destruct (Slice.bytes_eqb (firstn 2 b) _); [auto|].
  destruct (Slice.bytes_eqb (firstn 2 b) _); [auto|].
  destruct (_ && _); auto.
Qed.

Lemma Resize_detect_classify (buf : Slice.t) (s : Locals * World) :
  Slice.wf buf -> (12 <= Slice.len buf)%nat ->
  Resize_detect buf s =
  (if Spec.classify (Slice.contents buf) =? UNKNOWN
   then Return unknown_format
   else Val (Spec.classify (Slice.contents buf)), s).
Proof.
  destruct buf as [arr len]. unfold Slice.wf, Slice.cap, Slice.contents.
  cbn [Slice.arr Slice.len]. intros Hwf Hlen.
  unfold Resize_detect, Slice.slice, Slice.cap, Spec.classify.
  cbn [Slice.arr Slice.len].
  assert (H2 : ((2 <=? length arr) = true)%nat) by (apply Nat.leb_le; lia).
  assert (H4 : ((4 <=? length arr) = true)%nat) by (apply Nat.leb_le; lia).
  assert (H12 : ((12 <=? length arr) = true)%nat) by (apply Nat.leb_le; lia).
  rewrite H2, H4, H12.
  cbn [Nat.leb andb].
  cbv beta iota delta [bind val or_panic Slice.Equal Slice.contents].
  cbn [Slice.arr Slice.len Nat.sub].
  change (skipn 0 arr) with arr.
  rewrite !firstn_firstn, skipn_firstn_comm, firstn_firstn.
  replace (Nat.min 2 len) with 2%nat by lia.
  replace (Nat.min 4 len) with 4%nat by lia.
  replace (Nat.min 4 (len - 8)) with 4%nat by lia.
  change (firstn (Slice.len MARKER_JPEG) (Slice.arr MARKER_JPEG))
    with [Byte.xff; Byte.xd8].
  change (firstn (Slice.len MARKER_PNG) (Slice.arr MARKER_PNG))
    with [Byte.x89; Byte.x50].
  change (firstn (Slice.len MARKER_RIFF) (Slice.arr MARKER_RIFF))
    with [Byte.x52; Byte.x49; Byte.x46; Byte.x46].
  change (firstn (Slice.len MARKER_WEBP) (Slice.arr MARKER_WEBP))
    with [Byte.x57; Byte.x45; Byte.x42; Byte.x50].
  destruct (Slice.bytes_eqb (firstn 2 arr) [Byte.xff; Byte.xd8]); [reflexivity|].
  destruct (Slice.bytes_eqb (firstn 2 arr) [Byte.x89; Byte.x50]); [reflexivity|].
  destruct (Slice.bytes_eqb (firstn 4 arr) _); [|reflexivity].
  destruct (Slice.bytes_eqb (firstn 4 (skipn 8 arr)) _); reflexivity.
Qed.

Lemma Resize_feed_spec (E : Engine) (typ : ImageType) (buf : Slice.t)
    (o : Options) (w : World) :
  (0 < Slice.len buf)%nat ->
  typ = JPEG \/ typ = PNG \/ typ = WEBP ->
  Resize_feed E typ buf (mkLocals o None None, w) =
  (Val tt,
   (mkLocals o (stored None (first_load E typ (Slice.contents buf))) None,
    mkWorld (error_buffer w +:+ msg (first_load E typ (Slice.contents buf)))
            (calls w ++ [first_load_call typ (Slice.contents buf)]))).
Proof.
  intros Hlen Htyp. unfold Resize_feed, Slice.addr0.
  assert (H0 : ((0 <? Slice.len buf) = true)%nat) by (apply Nat.ltb_lt; lia).
  rewrite H0.
  destruct Htyp as [-> | [-> | ->]]; reflexivity.
Qed.

(** ** C1: the enlarge guard *)

Lemma Resize_plan_guarded (typ : ImageType) (inWidth inHeight : Z) (o : Options) :
  Enlarge o = false -> 0 < Width o -> 0 < Height o ->
  inWidth < Width o -> inHeight < Height o ->
  Resize_plan typ inWidth inHeight o =
  (mkPlan (F64.of_int 1) 1 (F64.of_int 0)
          (set_Height (set_Width o inWidth) inHeight), 1).
Proof.
  intros He Hw Hh Hiw Hih.
  unfold Resize_plan, Resize_calculations.
  assert (H1 : (Width o >? 0) = true) by lia.
  assert (H2 : (Height o >? 0) = true) by lia.
  rewrite H1, H2. cbn [andb].
  unfold Resize_enlarge_guard. cbn [p_o p_shrink p_factor p_residual].
  rewrite He.
  assert (H3 : (inWidth <? Width o) = true) by lia.
  assert (H4 : (inHeight <? Height o) = true) by lia.
  rewrite H3, H4. cbn [negb andb p_o p_shrink p_factor p_residual].
  unfold Resize_shrink_on_load.
  destruct (typ =? JPEG); reflexivity.
Qed.

Lemma bind_step {L R A B} (c : M L R A) (k : A -> M L R B)
    (s s' : L * World) (a : A) :
  c s = (Val a, s') -> bind c k s = k a s'.
Proof. intros H. unfold bind. rewrite H. reflexivity. Qed.

(** One statement of a body: run it, then tidy the frame and the world. *)
Tactic Notation "mstep" "by" tactic(tac) :=
  erewrite bind_step by tac;
  cbn [fst snd l_o l_image l_tmpImage calls error_buffer
       p_o p_shrink p_factor p_residual].
Tactic Notation "mstep" := mstep by reflexivity.

Lemma Resize_do_shrink_skip (E : Engine) (p : Plan) (s : Locals * World) :
  p_shrink p = 1 -> Resize_do_shrink E p s = (Val p, s).
Proof. intros H. unfold Resize_do_shrink. rewrite H. reflexivity. Qed.

Lemma Resize_affine_skip (E : Engine) (p : Plan) (s : Locals * World) :
  p_residual p = F64.of_int 0 -> Resize_affine E p s = (Val tt, s).
Proof. intros H. unfold Resize_affine. rewrite H. reflexivity. Qed.

Lemma Resize_crop_embed_skip (E : Engine) (o : Options) (img : Image)
    (t : handle) (w : World) :
  Width o = Xsize img -> Height o = Ysize img ->
  Resize_crop_embed E (mkLocals o (Some img) t, w)
  = (Val tt, (mkLocals o (Some img) t, w)).
Proof.
  intros Hw Hh. unfold Resize_crop_embed.
  cbv beta iota delta [bind val get_o get_image image_Xsize image_Ysize
    get_local fst snd l_o l_image].
  rewrite Hw, Hh, !Z.eqb_refl. reflexivity.
Qed.

Lemma Resize_finish_spec (E : Engine) (o : Options) (i t : handle) (w : World) :
  let cs := vips_colourspace E i in
  let h := stored t cs in
  Resize_finish E (mkLocals o i t, w) =
  (match GoBytes_of (save_result E h o) with
   | Returned b => Return (Some b, None)
   | Panicked why => Panic why
   end,
   (mkLocals o h h,
    mkWorld ((error_buffer w +:+ msg cs) +:+ msg (save_result E h o))
            (calls w ++ [Ccolourspace i; Cg_object_unref i;
                         save_call h o; Cg_object_unref h]))).
Proof.
  intros cs h. unfold Resize_finish.
  mstep.
  mstep.
  mstep.
  mstep.
  mstep.
  mstep by apply save_spec.
  mstep.
  unfold bind. rewrite GoBytes_spec.
  fold cs. fold h.
  rewrite <- !app_assoc. cbn [app].
  destruct (GoBytes_of (save_result E h o)); reflexivity.
Qed.

Lemma Resize_pipeline_guarded (E : Engine) (typ : ImageType) (buf : Slice.t)
    (o : Options) (img : Image) (w : World) :
  Enlarge o = false -> 0 < Width o -> 0 < Height o ->
  Xsize img < Width o -> Ysize img < Height o ->
  let o' := set_Height (set_Width (with_default_quality o) (Xsize img)) (Ysize img) in
  let cs := vips_colourspace E (Some img) in
  let h := stored None cs in
  Resize_pipeline E typ buf (mkLocals o (Some img) None, w) =
  (match GoBytes_of (save_result E h o') with
   | Returned b => Return (Some b, None)
   | Panicked why => Panic why
   end,
   (mkLocals o' h h,
    mkWorld ((error_buffer w +:+ msg cs) +:+ msg (save_result E h o'))
            (calls w ++ [Ccolourspace (Some img); Cg_object_unref (Some img);
                         save_call h o'; Cg_object_unref h]))).
Proof.
  intros He Hw Hh Hiw Hih o' cs h.
  assert (Hq : Resize_pipeline E typ buf (mkLocals o (Some img) None, w) =
               (let '(p, shrinkOnLoad) :=
                  Resize_plan typ (Xsize img) (Ysize img) (with_default_quality o) in
                (set_o (p_o p);;;
                 p <- Resize_reload E buf p shrinkOnLoad;;
                 p <- Resize_do_shrink E p;;
                 Resize_affine E p;;;
                 Resize_crop_embed E;;;
                 Resize_finish E))
                 (mkLocals (with_default_quality o) (Some img) None, w)).
  { unfold Resize_pipeline, with_default_quality.
    cbv beta iota delta [bind val get_o get_local fst snd l_o].
    destruct (Quality o =? 0); reflexivity. }
  rewrite Hq. clear Hq.
  rewrite Resize_plan_guarded;
    try (unfold with_default_quality; destruct (Quality o =? 0); assumption).
  fold o'. cbv beta iota zeta.
  mstep.
  mstep.
  mstep by (apply Resize_do_shrink_skip; reflexivity).
  mstep by (apply Resize_affine_skip; reflexivity).
  mstep by (apply Resize_crop_embed_skip; reflexivity).
  apply Resize_finish_spec.
Qed.

Lemma with_default_quality_fields (o : Options) :
  Enlarge (with_default_quality o) = Enlarge o /\
  Width (with_default_quality o) = Width o /\
  Height (with_default_quality o) = Height o.
Proof. unfold with_default_quality. destruct (Quality o =? 0); auto. Qed.

(** C1.  The buffer has been recognised and loaded: [img] is the input
    image.  With [Enlarge] unset, [Width > 0], [Height > 0] and the image
    smaller than the request on both axes, the plan is the identity
    (factor 1, shrink 1, residual 0, no shrink-on-load), the target size
    is the input size, and [Resize] hands the input image itself to the
    colour conversion and the save: no reload, shrink, affine, crop or
    embed is called. *)
Theorem Resize_enlarge_guard_identity
    (E : Engine) (buf : Slice.t) (o : Options) (w w1 : World)
    (typ : ImageType) (img : Image) :
  (typ <- Resize_detect buf;; Resize_feed E typ buf;;; val typ)
    (mkLocals o None None, w)
  = (Val typ, (mkLocals o (Some img) None, w1)) ->
  Enlarge o = false -> 0 < Width o -> 0 < Height o ->
  Xsize img < Width o -> Ysize img < Height o ->
  let o' := set_Height (set_Width (with_default_quality o) (Xsize img)) (Ysize img) in
  let h := stored None (vips_colourspace E (Some img)) in
  Resize_plan typ (Xsize img) (Ysize img) (with_default_quality o)
  = (mkPlan (F64.of_int 1) 1 (F64.of_int 0) o', 1)
  /\ Width o' = Xsize img /\ Height o' = Ysize img
  /\ Resize E buf o w
     = (buffer_result (GoBytes_of (save_result E h o')),
        mkLocals o' h h,
        mkWorld ""
          (calls w1 ++ [Ccolourspace (Some img); Cg_object_unref (Some img);
                        save_call h o'; Cg_object_unref h;
                        Cthread_shutdown; Cerror_clear])).
Proof.
  intros Hload He Hw Hh Hiw Hih o' h.
  destruct (with_default_quality_fields o) as (Hqe & Hqw & Hqh).
  split; [apply Resize_plan_guarded; congruence|].
  split; [reflexivity|]. split; [reflexivity|].
  unfold Resize, run, Resize_body.
  unfold bind in Hload |- *.
  destruct (Resize_detect buf (mkLocals o None None, w)) as [[t|r|why] s1];
    try discriminate Hload.
  destruct (Resize_feed E t buf s1) as [[[]|r|why] s2]; try discriminate Hload.
  cbv beta iota delta [val] in Hload.
  injection Hload as -> ->.
  unfold with_defer, Resize_cleanup.
  rewrite Resize_pipeline_guarded by assumption.
  fold o'. fold h. cbn [calls].
  rewrite <- !app_assoc. cbn [app].
  destruct (GoBytes_of (save_result E h o')); reflexivity.
Qed.

Lemma Resize_enlarge_guard_identity_witness :
  let E := Demo.engine Demo.thumb true true in
  let o := set_Height (set_Width Demo.no_options 500) 500 in
  let w1 := mkWorld "" [Cpngload_buffer (Slice.contents Demo.png_buf)] in
  let o' := set_Height (set_Width (with_default_quality o) 100) 100 in
  let h := stored None (vips_colourspace E (Some Demo.thumb)) in
  Resize_plan PNG 100 100 (with_default_quality o)
  = (mkPlan (F64.of_int 1) 1 (F64.of_int 0) o', 1)
  /\ Width o' = 100 /\ Height o' = 100
  /\ Resize E Demo.png_buf o world0
     = (buffer_result (GoBytes_of (save_result E h o')),
        mkLocals o' h h,
        mkWorld ""
          (calls w1 ++ [Ccolourspace (Some Demo.thumb);
                        Cg_object_unref (Some Demo.thumb);
                        save_call h o'; Cg_object_unref h;
                        Cthread_shutdown; Cerror_clear])).
Proof.
  apply (Resize_enlarge_guard_identity
           (Demo.engine Demo.thumb true true) Demo.png_buf
           (set_Height (set_Width Demo.no_options 500) 500) world0
           (mkWorld "" [Cpngload_buffer (Slice.contents Demo.png_buf)])
           PNG Demo.thumb);
    [reflexivity | reflexivity | simpl; lia | simpl; lia | simpl; lia | simpl; lia].
Defined.

(** ** C6: short buffers *)

(** C6, as the code has it.  On a buffer of at least twelve bytes the
    detection reads inside the buffer and does not panic: it gives the
    type of the signature the buffer starts with, and with no signature
    it fails the request with "unknown image format" before any native
    call.  (Nothing guards shorter buffers.) *)
Theorem Resize_detect_in_bounds
    (E : Engine) (buf : Slice.t) (o : Options) (w : World) :
  Slice.wf buf -> (12 <= Slice.len buf)%nat ->
  (forall s, Resize_detect buf s =
     (if Spec.classify (Slice.contents buf) =? UNKNOWN
      then Return unknown_format
      else Val (Spec.classify (Slice.contents buf)), s))
  /\ (Spec.classify (Slice.contents buf) = UNKNOWN ->
      Resize E buf o w = (Returned unknown_format, mkLocals o None None, w)).
Proof.
  intros Hwf Hlen. split.
  - intros s. apply Resize_detect_classify; assumption.
  - intros Hu. unfold Resize, run, Resize_body, bind.
    rewrite Resize_detect_classify by assumption.
    rewrite Hu. reflexivity.
Qed.

Lemma Resize_detect_in_bounds_witness :
  (forall s, Resize_detect Demo.zeros12_buf s =
     (if Spec.classify (Slice.contents Demo.zeros12_buf) =? UNKNOWN
      then Return unknown_format
      else Val (Spec.classify (Slice.contents Demo.zeros12_buf)), s))
  /\ (Spec.classify (Slice.contents Demo.zeros12_buf) = UNKNOWN ->
      Resize (Demo.engine Demo.thumb true true) Demo.zeros12_buf
             Demo.no_options world0
      = (Returned unknown_format, mkLocals Demo.no_options None None, world0)).
Proof.
  apply (Resize_detect_in_bounds (Demo.engine Demo.thumb true true)
           Demo.zeros12_buf Demo.no_options world0);
    [unfold Slice.wf; vm_compute; lia | vm_compute; lia].
Defined.

(** C6, as the claim states it, fails: the two zero bytes of scenario C
    are fewer than twelve bytes, and [Resize] panics on [buf[:4]] instead
    of returning the format error. *)
Lemma Resize_short_buffer_panics :
  (Slice.len Demo.zeros_buf < 12)%nat
  /\ Slice.wf Demo.zeros_buf
  /\ fst (fst (Resize (Demo.engine Demo.thumb true true) Demo.zeros_buf
                      Demo.no_options world0))
     = Panicked "slice bounds out of range".
Proof.
  split; [vm_compute; lia|]. split; [unfold Slice.wf; vm_compute; lia|]. reflexivity.
Qed.

(** ** C7: a load that fails *)

(** C7 does not hold of the code.  When the buffer has a JPEG, PNG or
    WEBP signature and the load leaves the image pointer nil (what a
    failed libvips load does), [Resize] does not return the engine's
    error: the status of the load is never read, and the next statement,
    [image.Xsize], panics on the nil pointer. *)
Theorem Resize_failed_load_panics
    (E : Engine) (buf : Slice.t) (o : Options) (w : World) :
  Slice.wf buf -> (12 <= Slice.len buf)%nat ->
  Spec.classify (Slice.contents buf) <> UNKNOWN ->
  out (first_load E (Spec.classify (Slice.contents buf)) (Slice.contents buf)) = None ->
  Resize E buf o w
  = (Panicked "invalid memory address or nil pointer dereference",
     mkLocals (with_default_quality o) None None,
     mkWorld ""
       (calls w ++ [first_load_call (Spec.classify (Slice.contents buf))
                                    (Slice.contents buf);
                    Cthread_shutdown; Cerror_clear])).
Proof.
  intros Hwf Hlen Hk Hout.
  assert (Htyp : Spec.classify (Slice.contents buf) = JPEG \/
                 Spec.classify (Slice.contents buf) = PNG \/
                 Spec.classify (Slice.contents buf) = WEBP).
  { destruct (classify_cases (Slice.contents buf)) as [H|[H|[H|H]]]; auto.
    contradiction. }
  unfold Resize, run, Resize_body.
  erewrite bind_step; cycle 1.
  { rewrite Resize_detect_classify by assumption.
    destruct (Z.eqb_spec (Spec.classify (Slice.contents buf)) UNKNOWN)
      as [Heq|_]; [contradiction|reflexivity]. }
  erewrite bind_step by (apply Resize_feed_spec; [lia | exact Htyp]).
  unfold stored. rewrite Hout.
  unfold with_defer, Resize_cleanup, Resize_pipeline, with_default_quality.
  cbv beta iota delta [bind val get_o set_o get_local put_local fst snd l_o
    l_image l_tmpImage image_Xsize get_image panic].
  destruct (Quality o =? 0); cbn [calls]; rewrite <- !app_assoc; reflexivity.
Qed.

Lemma Resize_failed_load_panics_witness :
  Resize (Demo.engine Demo.thumb false true) Demo.jpeg_buf Demo.no_options world0
  = (Panicked "invalid memory address or nil pointer dereference",
     mkLocals (with_default_quality Demo.no_options) None None,
     mkWorld ""
       (calls world0 ++
        [first_load_call (Spec.classify (Slice.contents Demo.jpeg_buf))
                         (Slice.contents Demo.jpeg_buf);
         Cthread_shutdown; Cerror_clear])).
Proof.
  apply (Resize_failed_load_panics (Demo.engine Demo.thumb false true)
           Demo.jpeg_buf Demo.no_options world0);
    [unfold Slice.wf; vm_compute; lia | vm_compute; lia | vm_compute; congruence | reflexivity].
Defined.

(** ** C8: [AutoRotate] with nothing to do *)




(** ** C10: the caller's [Options] *)

(** C10.  [Resize] takes [o] by value: whatever it assigns to [o.Width],
    [o.Height] and [o.Quality] goes to the callee's own cell, so for
    every call the caller's [Options] read the same after the call as
    before (the caller's store as a whole is the same). *)
Theorem Resize_call_keeps_caller_options
    (E : Engine) (st : gmap positive Options) (a : positive) (opts : Options)
    (buf : Slice.t) (w : World) :
  st !! a = Some opts ->
  exists res st' w',
    Resize_call E st a buf w = Some (res, st', w')
    /\ res = fst (fst (Resize E buf opts w))
    /\ st' !! a = Some opts
    /\ st' = st.
Proof.
  intros Ha. unfold Resize_call. rewrite Ha.
  destruct (Resize E buf opts w) as [[res locals] w'].
  eexists _, _, _. split; [reflexivity|]. split; [reflexivity|].
  assert (Hfresh : st !! fresh (dom st) = None).
  { apply not_elem_of_dom. apply is_fresh. }
  assert (Hst : delete (fresh (dom st))
                  (<[fresh (dom st) := l_o locals]>
                     (<[fresh (dom st) := opts]> st)) = st).
  { rewrite insert_insert_eq, delete_insert_eq. apply delete_id. exact Hfresh. }
  rewrite Hst. split; [exact Ha | reflexivity].
Qed.

Lemma Resize_call_keeps_caller_options_witness :
  exists res st' w',
    Resize_call (Demo.engine Demo.photo true true)
                {[ 1%positive := set_Width Demo.no_options 400 ]} 1%positive
                Demo.jpeg_buf world0
    = Some (res, st', w')
    /\ res = fst (fst (Resize (Demo.engine Demo.photo true true) Demo.jpeg_buf
                              (set_Width Demo.no_options 400) world0))
    /\ st' !! 1%positive = Some (set_Width Demo.no_options 400)
    /\ st' = {[ 1%positive := set_Width Demo.no_options 400 ]}.
Proof.
  apply (Resize_call_keeps_caller_options (Demo.engine Demo.photo true true)
           {[ 1%positive := set_Width Demo.no_options 400 ]} 1%positive
           (set_Width Demo.no_options 400) Demo.jpeg_buf world0).
  reflexivity.
Defined.

(** The callee's copy does change: in scenario A the planner fills in
    the height and the default quality. *)
Lemma Resize_overwrites_its_copy :
  let o := set_Width Demo.no_options 400 in
  let l := snd (fst (Resize (Demo.engine Demo.photo true true)
                            Demo.jpeg_buf o world0)) in
  (Width o, Height o, Quality o) = (400, 0, 0)
  /\ (Width (l_o l), Height (l_o l), Quality (l_o l)) = (400, 300, 100).
Proof. split; vm_compute; reflexivity. Qed.

(** ** C9: [getAngle]

    [getAngle] goes through [float64]; the lemmas below follow the
    rounding of [float64(angle)] far enough to see that it never falls
    below 270 for an angle above it. *)

Lemma digits2_pos_bounds (m : positive) :
  2 ^ (Z.pos (digits2_pos m) - 1) <= Z.pos m < 2 ^ Z.pos (digits2_pos m).
Proof.
  induction m as [m IH|m IH|]; cbn [digits2_pos].
  - rewrite Pos2Z.inj_succ, (Pos2Z.inj_xI m).
    replace (Z.succ (Z.pos (digits2_pos m)) - 1)
      with (Z.succ (Z.pos (digits2_pos m) - 1)) by lia.
    rewrite !Z.pow_succ_r by lia.
    generalize dependent (2 ^ (Z.pos (digits2_pos m) - 1)).
    generalize (2 ^ Z.pos (digits2_pos m)). lia.
  - rewrite Pos2Z.inj_succ, (Pos2Z.inj_xO m).
    replace (Z.succ (Z.pos (digits2_pos m)) - 1)
      with (Z.succ (Z.pos (digits2_pos m) - 1)) by lia.
    rewrite !Z.pow_succ_r by lia.
    generalize dependent (2 ^ (Z.pos (digits2_pos m) - 1)).
    generalize (2 ^ Z.pos (digits2_pos m)). lia.
  - cbn. lia.
Qed.

Lemma digits2_pos_iter_xO (m k : positive) :
  digits2_pos (Pos.iter xO m k) = (digits2_pos m + k)%positive.
Proof.
  induction k as [|k IH] using Pos.peano_ind.
  - cbn. lia.
  - rewrite Pos.iter_succ. cbn [digits2_pos]. rewrite IH. lia.
Qed.

Lemma shr_1_m (r : shr_record) : 0 <= shr_m r -> shr_m (shr_1 r) = shr_m r / 2.
Proof.
  destruct r as [m rb sb]. cbn [shr_m]. intros Hm.
  destruct m as [|[p|p|]|p]; cbn [shr_1 shr_m]; try lia; try reflexivity.
  - apply Z.div_unique with (r := 1); lia.
  - apply Z.div_unique with (r := 0); lia.
Qed.

Lemma iter_shr_1_m (n : positive) (r : shr_record) :
  0 <= shr_m r ->
  shr_m (SpecFloat.iter_pos shr_1 n r) = shr_m r / 2 ^ Z.pos n.
Proof.
  revert r. induction n as [n IH|n IH|]; intros r Hm; cbn [SpecFloat.iter_pos].
  - assert (H1 : 0 <= shr_m (shr_1 r)) by (rewrite shr_1_m by lia; apply Z.div_pos; lia).
    assert (H2 : 0 <= shr_m (SpecFloat.iter_pos shr_1 n (shr_1 r))).
    { rewrite IH by lia. apply Z.div_pos; lia. }
    rewrite IH by lia. rewrite IH by lia. rewrite shr_1_m by lia.
    rewrite !Z.div_div by lia. f_equal.
    rewrite (Pos2Z.inj_xI n).
    replace (2 * Z.pos n + 1) with (1 + Z.pos n + Z.pos n) by lia.
    rewrite !Z.pow_add_r by lia. lia.
  - assert (H2 : 0 <= shr_m (SpecFloat.iter_pos shr_1 n r)).
    { rewrite IH by lia. apply Z.div_pos; lia. }
    rewrite IH by lia. rewrite IH by lia.
    rewrite !Z.div_div by lia. f_equal.
    rewrite (Pos2Z.inj_xO n).
    replace (2 * Z.pos n) with (Z.pos n + Z.pos n) by lia.
    rewrite !Z.pow_add_r by lia. lia.
  - rewrite shr_1_m by lia. reflexivity.
Qed.

Lemma shr_record_of_loc_m (m : Z) (l : location) : shr_m (shr_record_of_loc m l) = m.
Proof. destruct l as [|[]]; reflexivity. Qed.

(** One shift to the canonical exponent keeps a mantissa positive as
    long as the value is not below the subnormal range. *)
Lemma shr_fexp_positive (m : positive) (e : Z) (l : location) :
  -1074 <= Z.pos (digits2_pos m) + e - 53 ->
  0 < shr_m (fst (shr_fexp F64.prec F64.emax (Z.pos m) e l))
  /\ snd (shr_fexp F64.prec F64.emax (Z.pos m) e l)
     = Z.max e (Z.pos (digits2_pos m) + e - 53).
Proof.
  intros Hrange. unfold shr_fexp, fexp, emin, F64.prec, F64.emax.
  cbn [Zdigits2].
  rewrite Z.max_l by lia.
  pose proof (digits2_pos_bounds m) as Hd.
  unfold shr.
  destruct (Z.pos (digits2_pos m) + e - 53 - e) as [|n|n] eqn:Hn;
    cbn [fst snd].
  - rewrite shr_record_of_loc_m. lia.
  - rewrite iter_shr_1_m by (rewrite shr_record_of_loc_m; lia).
    rewrite shr_record_of_loc_m. split; [|lia].
    apply Z.div_str_pos. split; [apply Z.pow_pos_nonneg; lia|].
    apply Z.le_trans with (2 ^ (Z.pos (digits2_pos m) - 1)); [|lia].
    apply Z.pow_le_mono_r; lia.
  - rewrite shr_record_of_loc_m. lia.
Qed.

Lemma round_nearest_even_ge (m : Z) (l : location) : m <= round_nearest_even m l.
Proof.
  unfold round_nearest_even. destruct l as [|[]]; try lia.
  destruct (Z.even m); lia.
Qed.

Lemma binary_round_aux_above (m : positive) (e : Z) (l : location) :
  -44 < Z.pos (digits2_pos m) + e - 53 ->
  above_270 (binary_round_aux F64.prec F64.emax false (Z.pos m) e l).
Proof.
  intros Hbig. unfold binary_round_aux.
  destruct (shr_fexp_positive m e l ltac:(lia)) as [Hm1 He1].
  destruct (shr_fexp F64.prec F64.emax (Z.pos m) e l) as [mrs1 e1].
  cbn [fst snd] in Hm1, He1.
  pose proof (round_nearest_even_ge (shr_m mrs1) (loc_of_shr_record mrs1)) as Hr.
  destruct (round_nearest_even (shr_m mrs1) (loc_of_shr_record mrs1))
    as [|m2|m2]; try lia.
  destruct (shr_fexp_positive m2 e1 loc_Exact ltac:(lia)) as [Hm2 He2].
  destruct (shr_fexp F64.prec F64.emax (Z.pos m2) e1 loc_Exact) as [mrs2 e2].
  cbn [fst snd] in Hm2, He2.
  destruct (shr_m mrs2) as [|m3|m3]; try lia.
  destruct (e2 <=? F64.emax - F64.prec).
  - right. exists m3, e2. split; [reflexivity|lia].
  - left. reflexivity.
Qed.

Lemma of_int_above (p : positive) :
  512 <= Z.pos p -> above_270 (F64.of_int (Z.pos p)).
Proof.
  intros Hp. unfold F64.of_int, binary_normalize, binary_round.
  pose proof (digits2_pos_bounds p) as Hd.
  assert (Hdig : 10 <= Z.pos (digits2_pos p)).
  { destruct (Z_lt_le_dec (Z.pos (digits2_pos p)) 10) as [Hlt|]; [|lia].
    assert (2 ^ Z.pos (digits2_pos p) <= 2 ^ 9) by (apply Z.pow_le_mono_r; lia).
    change (2 ^ 9) with 512 in *. lia. }
  unfold shl_align, fexp, emin, F64.prec, F64.emax.
  rewrite Z.max_l by lia.
  destruct (Z.pos (digits2_pos p) + 0 - 53 - 0) as [|k|k] eqn:Hk.
  - apply binary_round_aux_above. lia.
  - apply binary_round_aux_above. lia.
  - apply binary_round_aux_above.
    rewrite digits2_pos_iter_xO. lia.
Qed.

Lemma Min_above_270 (x : F64.float64) :
  above_270 x -> F64.to_int (F64.Min x (F64.of_int 270)) = 270.
Proof.
  intros [->|(m & e & -> & He)]; [reflexivity|].
  change (F64.of_int 270) with (S754_finite false 4749890231992320 (-44)).
  unfold F64.Min, F64.ltb, F64.eqb, SFltb, SFeqb.
  cbn [F64.is_inf F64.is_nan orb SFcompare andb].
  destruct (Z.compare_spec e (-44)) as [H|H|H]; try lia.
  reflexivity.
Qed.

Lemma min_270_small : forallb min_270_agrees (seq 0 512) = true.
Proof. vm_compute. reflexivity. Qed.

(** [int(math.Min(float64(a), 270))] is the integer minimum on the
    non-negative [int]s. *)
Lemma min_270_of_int (a : Z) :
  0 <= a -> F64.to_int (F64.Min (F64.of_int a) (F64.of_int 270)) = Z.min a 270.
Proof.
  intros Ha. destruct (Z_lt_le_dec a 512) as [Hs|Hb].
  - pose proof min_270_small as H.
    rewrite forallb_forall in H.
    specialize (H (Z.to_nat a)).
    unfold min_270_agrees in H. rewrite Z2Nat.id in H by lia.
    apply Z.eqb_eq, H. apply in_seq. lia.
  - destruct a as [|p|p]; try lia.
    rewrite Min_above_270 by (apply of_int_above; lia). lia.
Qed.

(** C9, as the code has it.  For every non-negative [int] angle (the
    only caller, [rotateAndFlipImage], passes angles above 0),
    [getAngle] returns one of 0, 90, 180, 270: the angle rounded down to
    a multiple of 90 and capped at 270. *)
Theorem getAngle_normalizes (angle : Angle) :
  0 <= angle <= GoInt.int_max ->
  getAngle angle = Spec.normalizeAngle angle
  /\ In (getAngle angle) [0; 90; 180; 270].
Proof.
  intros Ha. unfold GoInt.int_max in Ha.
  assert (Hrem : Z.rem angle 90 = angle mod 90) by (apply Z.rem_mod_nonneg; lia).
  pose proof (Z.mod_pos_bound angle 90 ltac:(lia)) as Hr.
  pose proof (Z.div_mod angle 90 ltac:(lia)) as Hdm.
  assert (Hq : 0 <= angle / 90) by (apply Z.div_pos; lia).
  assert (Hg : getAngle angle = Z.min (90 * (angle / 90)) 270).
  { unfold getAngle, GoInt.rem, GoInt.sub. rewrite Hrem.
    destruct (Z.eqb_spec (angle mod 90) 0) as [H0|H0]; cbn [negb].
    - rewrite min_270_of_int by lia. f_equal. lia.
    - rewrite wrap_id
        by (unfold GoInt.is_int, GoInt.int_min, GoInt.int_max; lia).
      rewrite min_270_of_int by lia. f_equal. lia. }
  split; [exact Hg|]. rewrite Hg. cbn [In].
  destruct (Z_lt_le_dec (angle / 90) 3) as [Hlt|Hge]; lia.
Qed.

Lemma getAngle_normalizes_witness :
  getAngle 200 = Spec.normalizeAngle 200
  /\ In (getAngle 200) [0; 90; 180; 270].
Proof.
  apply (getAngle_normalizes 200). unfold GoInt.int_max. lia.
Defined.

(** C9, as the claim states it, fails: [getAngle] returns -90 for -90,
    which is not one of 0, 90, 180, 270. *)
Lemma getAngle_negative_angle :
  getAngle (-90) = -90 /\ ~ In (getAngle (-90)) [0; 90; 180; 270].
Proof.
  assert (H : getAngle (-90) = -90) by (vm_compute; reflexivity).
  split; [exact H|]. rewrite H. cbn [In]. lia.
Qed.

(** The angle [rotateAndFlipImage] hands to [getAngle] is above 0. *)
Lemma rotateAndFlipImage_rotates_positive
    (E : Engine) (image : Image) (o : Options) :
  Rotate (oAfterExif image o) <= 0 ->
  existsb is_rot (calls (snd (snd (rotateAndFlipImage E image o (tt, world0)))))
  = false.
Proof.
  intros Hr. unfold rotateAndFlipImage.
  assert (Hgt : (Rotate (oAfterExif image o) >? 0) = false) by lia.
  rewrite Hgt.
  unfold bind, call, vipsFlip, with_defer, vips_flip_bridge, native,
    catchVipsError, vips_error_buffer, vips_error_clear, vips_thread_shutdown,
    log, get_world, put_world, return_, val, bind.
  cbn [fst snd].
  destruct (Flip (oAfterExif image o));
    cbn [negb Z.eqb HORIZONTAL VERTICAL fst snd calls error_buffer].
  all: try (destruct (Flop (oAfterExif image o));
            cbn [negb Z.eqb HORIZONTAL VERTICAL fst snd calls error_buffer]).
  all: repeat match goal with
       | |- context [ret (vips_flip ?e ?h ?d) =? 0] =>
           destruct (ret (vips_flip e h d) =? 0);
           cbn [negb fst snd calls error_buffer]
       end.
  all: reflexivity.
Qed.

(** ** The end-to-end scenarios of the specification, run on the model *)

(** Scenario A: a 4000x3000 JPEG and [Width=400] give a target of
    400x300; the JPEG is reloaded with shrink-on-load 8 and scaled by the
    residual 0.8. *)
Example scenario_A :
  let '(res, l, w) :=
    Resize (Demo.engine Demo.photo true true) Demo.jpeg_buf
           (set_Width Demo.no_options 400) world0 in
  res = Returned (Some Demo.jpeg_bytes, None)
  /\ (Width (l_o l), Height (l_o l)) = (400, 300)
  /\ l_image l = Some (mkImage 400 300 None)
  /\ existsb (fun c => match c with
                      | Cjpegload_buffer _ (ShrinkBy 8) => true
                      | _ => false
                      end) (calls w) = true.
Proof. vm_compute. repeat split; reflexivity. Qed.

(** Scenario C: two zero bytes in a buffer long enough to be read fail
    with the format error, and no native call is made. *)
Example scenario_C :
  Resize (Demo.engine Demo.thumb true true) Demo.zeros12_buf Demo.no_options world0
  = (Returned (None, Some "unknown image format"),
     mkLocals Demo.no_options None None, world0).
Proof. reflexivity. Qed.

(** Scenario D: EXIF orientation 6, nothing asked by the caller: one
    rotation, by 90 degrees ([VIPS_ANGLE_D90]). *)
Example scenario_D :
  filter is_rot
    (calls (snd (snd (rotateAndFlipImage (Demo.engine Demo.sideways true true)
                                         Demo.sideways Demo.no_options
                                         (tt, world0)))))
  = [Crot (Some Demo.sideways) 1].
Proof. reflexivity. Qed.

(** * Further properties of the code *)

(** ** Calls and results of a body, statement by statement *)

Lemma emits_val {L R A} (P : Call -> bool) (a : A) : emits P (@val L R A a).
Proof. intros s. exists []. rewrite app_nil_r. split; reflexivity. Qed.

Lemma emits_return {L R A} (P : Call -> bool) (r : R) : emits P (@return_ L R A r).
Proof. intros s. exists []. rewrite app_nil_r. split; reflexivity. Qed.

Lemma emits_panic {L R A} (P : Call -> bool) (why : string) :
  emits P (@panic L R A why).
Proof. intros s. exists []. rewrite app_nil_r. split; reflexivity. Qed.

Lemma emits_bind {L R A B} (P : Call -> bool) (c : M L R A) (k : A -> M L R B) :
  emits P c -> (forall a, emits P (k a)) -> emits P (bind c k).
Proof.
  intros Hc Hk s. unfold bind.
  destruct (Hc s) as (n1 & H1 & P1).
  destruct (c s) as [[a|r|why] s1]; cbn [fst snd] in *.
  - destruct (Hk a s1) as (n2 & H2 & P2).
    exists (n1 ++ n2). rewrite H2, H1, app_assoc. split; [reflexivity|].
    rewrite forallb_app, P1, P2. reflexivity.
  - exists n1. split; assumption.
  - exists n1. split; assumption.
Qed.

Lemma emits_native {L R A} (P : Call -> bool) (c : Call) (r : CRet A) :
  P c = true -> emits P (@native L R A c r).
Proof.
  intros HP s. exists [c]. cbn. rewrite HP. split; reflexivity.
Qed.

Lemma emits_log {L R} (P : Call -> bool) (c : Call) :
  P c = true -> emits P (@log L R c).
Proof.
  intros HP s. exists [c]. cbn. rewrite HP. split; reflexivity.
Qed.

Lemma emits_get_local {L R} (P : Call -> bool) : emits P (@get_local L R).
Proof. intros s. exists []. rewrite app_nil_r. split; reflexivity. Qed.

Lemma emits_put_local {L R} (P : Call -> bool) (l : L) : emits P (@put_local L R l).
Proof. intros s. exists []. rewrite app_nil_r. split; reflexivity. Qed.

Lemma emits_error_buffer {L R} (P : Call -> bool) : emits P (@vips_error_buffer L R).
Proof. intros s. exists []. rewrite app_nil_r. split; reflexivity. Qed.

Lemma emits_error_clear {L R} (P : Call -> bool) :
  P Cerror_clear = true -> emits P (@vips_error_clear L R).
Proof.
  intros HP s. exists [Cerror_clear]. cbn. rewrite HP. split; reflexivity.
Qed.

Lemma emits_with_defer {L R A} (P : Call -> bool) (f : World -> World)
    (body : M L R A) :
  emits P body ->
  (forall w, exists new, calls (f w) = calls w ++ new /\ forallb P new = true) ->
  emits P (with_defer f body).
Proof.
  intros Hb Hf s. unfold with_defer.
  destruct (Hb s) as (n1 & H1 & P1).
  destruct (body s) as [x [l w]]. cbn [fst snd] in *.
  destruct (Hf w) as (n2 & H2 & P2).
  exists (n1 ++ n2). rewrite H2, H1, app_assoc. split; [reflexivity|].
  rewrite forallb_app, P1, P2. reflexivity.
Qed.

Lemma yields_val {L R A} (QV : A -> Prop) (QR : R -> Prop) (a : A) :
  QV a -> yields QV QR (@val L R A a).
Proof. intros H s. exact H. Qed.

Lemma yields_return {L R A} (QV : A -> Prop) (QR : R -> Prop) (r : R) :
  QR r -> yields QV QR (@return_ L R A r).
Proof. intros H s. exact H. Qed.

Lemma yields_panic {L R A} (QV : A -> Prop) (QR : R -> Prop) (why : string) :
  yields QV QR (@panic L R A why).
Proof. intros s. exact I. Qed.

Lemma yields_bind {L R A B} (QV : B -> Prop) (QR : R -> Prop)
    (c : M L R A) (k : A -> M L R B) :
  yields (fun _ => True) QR c -> (forall a, yields QV QR (k a)) ->
  yields QV QR (bind c k).
Proof.
  intros Hc Hk s. unfold bind. specialize (Hc s).
  destruct (c s) as [[a|r|why] s1]; cbn [fst] in *.
  - apply Hk.
  - exact Hc.
  - exact I.
Qed.

(** A step that cannot leave the function: it goes on or panics. *)
Lemma yields_step {L R A} (QR : R -> Prop) (c : M L R A) :
  (forall s, match fst (c s) with Return _ => False | _ => True end) ->
  yields (fun _ => True) QR c.
Proof.
  intros H s. specialize (H s). destruct (fst (c s)); [exact I|contradiction|exact I].
Qed.

Lemma yields_with_defer {L R A} (QV : A -> Prop) (QR : R -> Prop)
    (f : World -> World) (body : M L R A) :
  yields QV QR body -> yields QV QR (with_defer f body).
Proof.
  intros Hb s. unfold with_defer. specialize (Hb s).
  destruct (body s) as [x [l w]]. exact Hb.
Qed.

Ltac emits_step :=
  match goal with
  | |- emits _ (bind _ _) => apply emits_bind; [|intros ?]
  | |- emits _ (val _) => apply emits_val
  | |- emits _ (return_ _) => apply emits_return
  | |- emits _ (panic _) => apply emits_panic
  | |- emits _ (native _ _) => apply emits_native; reflexivity
  | |- emits _ (log _) => apply emits_log; reflexivity
  | |- emits _ get_local => apply emits_get_local
  | |- emits _ (put_local _) => apply emits_put_local
  | |- emits _ vips_error_buffer => apply emits_error_buffer
  | |- emits _ vips_error_clear => apply emits_error_clear; reflexivity
  | |- emits _ (if ?b then _ else _) => destruct b
  | |- emits _ (match ?x with _ => _ end) => destruct x
  end.

Ltac unfold_body :=
  unfold Resize_detect, Resize_feed, Resize_pipeline, Resize_reload,
    Resize_do_shrink, Resize_affine, Resize_crop_embed, Resize_finish,
    replace_image, save, GoBytes, resizeError, catchVipsError,
    image_Xsize, image_Ysize, get_o, set_o, get_image, set_image,
    get_tmpImage, set_tmpImage, or_panic, unknown_format,
    vips_jpegload_buffer_seq, vips_jpegload_buffer_shrink,
    vips_pngload_buffer_seq, vips_webpload_buffer_custom, vips_shrink_0,
    vips_affine_interpolator, vips_extract_area_0, vips_embed_extend,
    vips_colourspace_0, vips_jpegsave_custom, vips_webpsave_custom,
    vips_pngsave_custom, vips_autorotate, vips_load_from_file,
    g_object_unref, vips_thread_shutdown.

Lemma Resize_body_emits (E : Engine) (buf : Slice.t) :
  emits resize_call (Resize_body E buf).
Proof.
  unfold Resize_body. unfold_body. cbv zeta.
  repeat emits_step.
  apply emits_with_defer.
  - repeat emits_step.
  - intros w. exists [Cthread_shutdown; Cerror_clear]. split; reflexivity.
Qed.

Lemma yields_native {L R A} (QR : R -> Prop) (c : Call) (r : CRet A) :
  yields (fun _ => True) QR (@native L R A c r).
Proof. intros s. exact I. Qed.

Lemma yields_log {L R} (QR : R -> Prop) (c : Call) :
  yields (fun _ => True) QR (@log L R c).
Proof. intros s. exact I. Qed.

Lemma yields_get_local {L R} (QR : R -> Prop) :
  yields (fun _ => True) QR (@get_local L R).
Proof. intros s. exact I. Qed.

Lemma yields_put_local {L R} (QR : R -> Prop) (l : L) :
  yields (fun _ => True) QR (@put_local L R l).
Proof. intros s. exact I. Qed.

Lemma yields_get_world {L R} (QR : R -> Prop) :
  yields (fun _ => True) QR (@get_world L R).
Proof. intros s. exact I. Qed.

Lemma yields_put_world {L R} (QR : R -> Prop) (w : World) :
  yields (fun _ => True) QR (@put_world L R w).
Proof. intros s. exact I. Qed.

Ltac yields_step :=
  match goal with
  | |- yields _ _ (bind _ _) => apply yields_bind; [|intros ?]
  | |- yields _ _ (val _) => apply yields_val; exact I
  | |- yields _ _ (return_ _) =>
      apply yields_return;
      first [left; eexists; reflexivity | right; eexists; reflexivity]
  | |- yields _ _ (panic _) => apply yields_panic
  | |- yields _ _ (native _ _) => apply yields_native
  | |- yields _ _ (log _) => apply yields_log
  | |- yields _ _ get_local => apply yields_get_local
  | |- yields _ _ (put_local _) => apply yields_put_local
  | |- yields _ _ get_world => apply yields_get_world
  | |- yields _ _ (put_world _) => apply yields_put_world
  | |- yields _ _ (with_defer _ _) => apply yields_with_defer
  | |- yields _ _ (if ?b then _ else _) => destruct b
  | |- yields _ _ (match ?x with _ => _ end) => destruct x
  end.

Lemma Resize_body_yields (E : Engine) (buf : Slice.t) :
  yields buffer_xor_error buffer_xor_error (Resize_body E buf).
Proof.
  unfold Resize_body. unfold_body.
  unfold vips_error_buffer, vips_error_clear. cbv zeta.
  repeat yields_step.
Qed.

(** ** What [Resize] never does *)

(** [Resize] only adds to the list of native calls, and adds no rotation,
    flip or autorotate call and no load from a file, whatever the buffer,
    the options ([Rotate], [Flip], [Flop] and [NoAutoRotate] among them)
    and the EXIF orientation of the image: [rotateAndFlipImage] is not
    on its path. *)
Theorem Resize_never_rotates
    (E : Engine) (buf : Slice.t) (o : Options) (w : World) :
  exists new,
    calls (snd (Resize E buf o w)) = calls w ++ new
    /\ forallb resize_call new = true.
Proof.
  unfold Resize, run.
  destruct (Resize_body_emits E buf (mkLocals o None None, w)) as (new & H & HP).
  destruct (Resize_body E buf (mkLocals o None None, w)) as [[r|r|why] [l' w']];
    cbn [fst snd] in *; exists new; split; assumption.
Qed.

(** When [Resize] returns, it returns a buffer with a nil error or a nil
    buffer with an error: never both, never neither. *)
Theorem Resize_buffer_xor_error
    (E : Engine) (buf : Slice.t) (o : Options) (w : World) :
  match fst (fst (Resize E buf o w)) with
  | Returned r => buffer_xor_error r
  | Panicked _ => True
  end.
Proof.
  unfold Resize, run.
  pose proof (Resize_body_yields E buf (mkLocals o None None, w)) as H.
  destruct (Resize_body E buf (mkLocals o None None, w)) as [[r|r|why] [l' w']];
    cbn [fst snd] in *; [exact H | exact H | exact I].
Qed.

(** Once the buffer is recognised and handed to a loader, the deferred
    cleanup runs however [Resize] ends, by a return or by a panic: the
    last two native calls are [vips_thread_shutdown] and
    [vips_error_clear], and the error buffer is left empty. *)
Theorem Resize_cleanup_always_runs
    (E : Engine) (buf : Slice.t) (o : Options) (w : World) :
  Slice.wf buf -> (12 <= Slice.len buf)%nat ->
  Spec.classify (Slice.contents buf) <> UNKNOWN ->
  error_buffer (snd (Resize E buf o w)) = EmptyString
  /\ exists before,
       calls (snd (Resize E buf o w))
       = before ++ [Cthread_shutdown; Cerror_clear].
Proof.
  intros Hwf Hlen Hk.
  assert (Htyp : Spec.classify (Slice.contents buf) = JPEG \/
                 Spec.classify (Slice.contents buf) = PNG \/
                 Spec.classify (Slice.contents buf) = WEBP).
  { destruct (classify_cases (Slice.contents buf)) as [H|[H|[H|H]]]; auto.
    contradiction. }
  unfold Resize, run, Resize_body.
  erewrite bind_step; cycle 1.
  { rewrite Resize_detect_classify by assumption.
    destruct (Z.eqb_spec (Spec.classify (Slice.contents buf)) UNKNOWN)
      as [Heq|_]; [contradiction|reflexivity]. }
  erewrite bind_step by (apply Resize_feed_spec; [lia | exact Htyp]).
  unfold with_defer, Resize_cleanup.
  destruct (Resize_pipeline E _ buf _) as [[r|r|why] [l' w']];
    cbn [fst snd error_buffer calls]; (split; [reflexivity|eexists; reflexivity]).
Qed.

Lemma Resize_cleanup_always_runs_witness :
  error_buffer (snd (Resize (Demo.engine Demo.thumb false true) Demo.jpeg_buf
                            Demo.no_options world0)) = EmptyString
  /\ exists before,
       calls (snd (Resize (Demo.engine Demo.thumb false true) Demo.jpeg_buf
                          Demo.no_options world0))
       = before ++ [Cthread_shutdown; Cerror_clear].
Proof.
  apply (Resize_cleanup_always_runs (Demo.engine Demo.thumb false true)
           Demo.jpeg_buf Demo.no_options world0);
    [unfold Slice.wf; vm_compute; lia | vm_compute; lia | vm_compute; congruence].
Defined.

(** ** Rotation and flip *)

Lemma calculateRotationAndFlip_cases (image : Image) :
  In (calculateRotationAndFlip image 0)
     [(0, false); (0, true); (90, false); (90, true);
      (180, false); (180, true); (270, false); (270, true)].
Proof.
  unfold calculateRotationAndFlip. cbn [Z.gtb Z.compare].
  repeat match goal with
         | |- context [if ?b then _ else _] => destruct b
         end;
    cbn [In]; unfold D0, D90, D180, D270; tauto.
Qed.

Lemma getAngle_quarters :
  getAngle 90 = 90 /\ getAngle 180 = 180 /\ getAngle 270 = 270.
Proof. repeat split; vm_compute; reflexivity. Qed.

Lemma oAfterExif_auto (image : Image) (o : Options) :
  NoAutoRotate o = false -> Rotate o = 0 ->
  Rotate (oAfterExif image o) = fst (calculateRotationAndFlip image 0)
  /\ Flip (oAfterExif image o) = snd (calculateRotationAndFlip image 0) || Flip o
  /\ Flop (oAfterExif image o) = Flop o.
Proof.
  intros Hn Hr. unfold oAfterExif. rewrite Hn, Hr. cbn [negb].
  pose proof (calculateRotationAndFlip_cases image) as Hc.
  destruct (calculateRotationAndFlip image 0) as [r f]. cbn [fst snd].
  cbn [In] in Hc.
  destruct Hc as [H|[H|[H|[H|[H|[H|[H|[H|[]]]]]]]]]; injection H as <- <-;
    cbn; rewrite ?Hr; cbn; auto.
Qed.

Ltac run_rotateAndFlip :=
  unfold rotateAndFlipImage;
  unfold bind, call, vipsRotate, vipsFlip, with_defer, vips_rotate,
    vips_flip_bridge, native, catchVipsError, vips_error_buffer,
    vips_error_clear, vips_thread_shutdown, log, get_world, put_world,
    return_, val, bind;
  cbn [fst snd].

Ltac split_rets :=
  repeat match goal with
         | |- context [ret (vips_rot ?e ?h ?d) =? 0] =>
             destruct (ret (vips_rot e h d) =? 0);
             cbn [negb fst snd calls error_buffer]
         | |- context [ret (vips_flip ?e ?h ?d) =? 0] =>
             destruct (ret (vips_flip e h d) =? 0);
             cbn [negb fst snd calls error_buffer]
         end.

(** With [NoAutoRotate] unset and no rotation asked by the caller,
    [rotateAndFlipImage] applies the orientation
    [calculateRotationAndFlip] resolves from EXIF: one rotation by the
    resolved angle (none when it is 0), and a horizontal flip exactly
    when EXIF asks for one or the caller set [Flip]. *)
Theorem rotateAndFlipImage_auto_orientation
    (E : Engine) (image : Image) (o : Options) (w : World) :
  NoAutoRotate o = false -> Rotate o = 0 ->
  let r := fst (calculateRotationAndFlip image 0) in
  let f := snd (calculateRotationAndFlip image 0) in
  exists new,
    calls (snd (snd (rotateAndFlipImage E image o (tt, w)))) = calls w ++ new
    /\ List.filter is_rot new
       = (if r =? 0 then [] else [Crot (Some image) (r ÷ 90)])
    /\ existsb (is_flip HORIZONTAL) new = f || Flip o.
Proof.
  intros Hn Hr r f.
  destruct (oAfterExif_auto image o Hn Hr) as (HR & HF & _).
  fold r in HR. fold f in HF.
  pose proof (calculateRotationAndFlip_cases image) as Hc.
  assert (Hrv : r = 0 \/ r = 90 \/ r = 180 \/ r = 270).
  { unfold r. destruct (calculateRotationAndFlip image 0) as [r0 f0].
    cbn [In fst] in *.
    destruct Hc as [H|[H|[H|[H|[H|[H|[H|[H|[]]]]]]]]]; injection H as <- <-; auto. }
  destruct getAngle_quarters as (G1 & G2 & G3).
  run_rotateAndFlip. rewrite HR, HF.
  destruct Hrv as [-> | [-> | [-> | ->]]]; rewrite ?G1, ?G2, ?G3;
    cbn [Z.gtb Z.compare Z.eqb VipsAngle_of Pos.eqb Pos.compare Pos.compare_cont];
    split_rets;
    destruct (f || Flip o);
    cbn [negb Z.eqb HORIZONTAL VERTICAL fst snd calls error_buffer];
    try (destruct (Flop (oAfterExif image o));
         cbn [negb Z.eqb HORIZONTAL VERTICAL fst snd calls error_buffer]);
    split_rets;
    rewrite <- ?app_assoc; cbn [app];
    (eexists; split; [first [reflexivity | symmetry; apply app_nil_r]|]);
    split; reflexivity.
Qed.

Lemma rotateAndFlipImage_auto_orientation_witness :
  exists new,
    calls (snd (snd (rotateAndFlipImage (Demo.engine Demo.sideways true true)
                       Demo.sideways Demo.no_options (tt, world0))))
    = calls world0 ++ new
    /\ List.filter is_rot new
       = (if fst (calculateRotationAndFlip Demo.sideways 0) =? 0 then []
          else [Crot (Some Demo.sideways)
                     (fst (calculateRotationAndFlip Demo.sideways 0) ÷ 90)])
    /\ existsb (is_flip HORIZONTAL) new
       = snd (calculateRotationAndFlip Demo.sideways 0) || Flip Demo.no_options.
Proof.
  apply (rotateAndFlipImage_auto_orientation (Demo.engine Demo.sideways true true)
           Demo.sideways Demo.no_options world0); reflexivity.
Defined.

Lemma oAfterExif_keeps_Flip (image : Image) (o : Options) :
  Flip o = true -> Flip (oAfterExif image o) = true.
Proof.
  intros HF. unfold oAfterExif.
  destruct (negb (NoAutoRotate o)); [|exact HF].
  destruct (calculateRotationAndFlip image (Rotate o)) as [r [|]];
    destruct (_ && _); cbn; auto.
Qed.

(** When the caller sets [Flip], exactly one flip is made and it is the
    horizontal one, also when [Flop] is set as well: the vertical flip is
    then never made. *)
Theorem rotateAndFlipImage_flip_wins
    (E : Engine) (image : Image) (o : Options) (w : World) :
  Flip o = true ->
  exists new h,
    calls (snd (snd (rotateAndFlipImage E image o (tt, w)))) = calls w ++ new
    /\ List.filter is_any_flip new = [Cflip h HORIZONTAL].
Proof.
  intros HF. pose proof (oAfterExif_keeps_Flip image o HF) as HF'.
  run_rotateAndFlip. rewrite HF'.
  destruct (Rotate (oAfterExif image o) >? 0);
    cbn [negb Z.eqb HORIZONTAL VERTICAL fst snd calls error_buffer];
    split_rets;
    rewrite <- ?app_assoc; cbn [app];
    eexists; eexists; (split; [reflexivity|]); reflexivity.
Qed.

Lemma rotateAndFlipImage_flip_wins_witness :
  let o := mkOptions 0 0 false false EXTEND_BLACK false BICUBIC CENTRE 0
             (S754_zero false) (S754_zero false) UNKNOWN true D0 true true in
  exists new h,
    calls (snd (snd (rotateAndFlipImage (Demo.engine Demo.photo true true)
                       Demo.photo o (tt, world0))))
    = calls world0 ++ new
    /\ List.filter is_any_flip new = [Cflip h HORIZONTAL].
Proof.
  apply (rotateAndFlipImage_flip_wins (Demo.engine Demo.photo true true)
           Demo.photo _ world0). reflexivity.
Defined.

(** A failed rotation does not stop [rotateAndFlipImage]: when a
    horizontal flip is due it is still called, on the nil image the
    rotation returned, and the error handed back is the flip's alone
    (nil when the flip reports success); the rotation's error is lost. *)
Theorem rotateAndFlipImage_flips_after_failed_rotation
    (E : Engine) (image : Image) (o : Options) (w : World) :
  let o' := oAfterExif image o in
  let fl := vips_flip E None HORIZONTAL in
  0 < Rotate o' ->
  ret (vips_rot E (Some image) (VipsAngle_of (getAngle (Rotate o')))) <> 0 ->
  Flip o' = true ->
  fst (rotateAndFlipImage E image o (tt, w))
  = Return (if ret fl =? 0 then (stored None fl, None) else (None, Some (msg fl)))
  /\ exists before after,
       calls (snd (snd (rotateAndFlipImage E image o (tt, w))))
       = before ++ Cflip None HORIZONTAL :: after.
Proof.
  intros o' fl Hr Hfail HF.
  run_rotateAndFlip. fold o'. rewrite HF.
  assert (Hgt : (Rotate o' >? 0) = true) by lia. rewrite Hgt.
  destruct (Z.eqb_spec
              (ret (vips_rot E (Some image) (VipsAngle_of (getAngle (Rotate o'))))) 0)
    as [H0|_]; [contradiction|].
  cbn [negb Z.eqb HORIZONTAL fst snd calls error_buffer]. fold fl.
  destruct (ret fl =? 0); cbn [negb fst snd calls error_buffer];
    (split; [reflexivity|]);
    rewrite <- ?app_assoc; cbn [app];
    eexists (_ ++ [_; _; _; _]), _;
    rewrite <- app_assoc; cbn [app]; reflexivity.
Qed.

Lemma rotateAndFlipImage_flips_after_failed_rotation_witness :
  let E := without_rot (Demo.engine Demo.mirrored true true) in
  let o := set_Flip (set_Rotate Demo.no_options 90) true in
  let fl := vips_flip E None HORIZONTAL in
  fst (rotateAndFlipImage E Demo.mirrored o (tt, world0))
  = Return (if ret fl =? 0 then (stored None fl, None) else (None, Some (msg fl)))
  /\ exists before after,
       calls (snd (snd (rotateAndFlipImage E Demo.mirrored o (tt, world0))))
       = before ++ Cflip None HORIZONTAL :: after.
Proof.
  apply (rotateAndFlipImage_flips_after_failed_rotation
           (without_rot (Demo.engine Demo.mirrored true true))
           Demo.mirrored (set_Flip (set_Rotate Demo.no_options 90) true) world0);
    [vm_compute; reflexivity | vm_compute; congruence | reflexivity].
Defined.

(** Every rotation and every flip [rotateAndFlipImage] calls releases
    its input: on every path, failed operations included, there are as
    many [g_object_unref] calls as operations. *)
Theorem rotateAndFlipImage_releases_inputs
    (E : Engine) (image : Image) (o : Options) (w : World) :
  exists new,
    calls (snd (snd (rotateAndFlipImage E image o (tt, w)))) = calls w ++ new
    /\ length (List.filter is_unref new) = length (List.filter is_operation new).
Proof.
  run_rotateAndFlip.
  destruct (Rotate (oAfterExif image o) >? 0);
    cbn [negb fst snd calls error_buffer];
    split_rets;
    destruct (Flip (oAfterExif image o));
    cbn [negb Z.eqb HORIZONTAL VERTICAL fst snd calls error_buffer];
    try (destruct (Flop (oAfterExif image o));
         cbn [negb Z.eqb HORIZONTAL VERTICAL fst snd calls error_buffer]);
    split_rets;
    rewrite <- ?app_assoc; cbn [app];
    (eexists; split; [first [reflexivity | symmetry; apply app_nil_r]|]);
    reflexivity.
Qed.

Lemma getAngle_value (angle : Angle) :
  0 <= angle <= GoInt.int_max -> getAngle angle = Z.min (90 * (angle / 90)) 270.
Proof.
  intros Ha. unfold GoInt.int_max in Ha.
  assert (Hrem : Z.rem angle 90 = angle mod 90) by (apply Z.rem_mod_nonneg; lia).
  pose proof (Z.mod_pos_bound angle 90 ltac:(lia)) as Hr.
  pose proof (Z.div_mod angle 90 ltac:(lia)) as Hdm.
  assert (Hq : 0 <= angle / 90) by (apply Z.div_pos; lia).
  unfold getAngle, GoInt.rem, GoInt.sub. rewrite Hrem.
  destruct (Z.eqb_spec (angle mod 90) 0) as [H0|H0]; cbn [negb].
  - rewrite min_270_of_int by lia. f_equal. lia.
  - rewrite wrap_id
      by (unfold GoInt.is_int, GoInt.int_min, GoInt.int_max; lia).
    rewrite min_270_of_int by lia. f_equal. lia.
Qed.

(** [getAngle] followed by [vips_rotate]: for a non-negative angle the
    rotation asked of libvips is [angle / 90] quarter turns, at most 3.
    A full turn and more is not reduced modulo 360: 360 degrees give
    three quarter turns. *)
Theorem rotation_quarter_turns (angle : Angle) :
  0 <= angle <= GoInt.int_max ->
  VipsAngle_of (getAngle angle) = Z.min (angle / 90) 3.
Proof.
  intros Ha. rewrite getAngle_value by exact Ha.
  unfold GoInt.int_max in Ha.
  assert (Hq : 0 <= angle / 90) by (apply Z.div_pos; lia).
  destruct (Z_lt_le_dec (angle / 90) 3) as [Hlt|Hge].
  - assert (Hc : angle / 90 = 0 \/ angle / 90 = 1 \/ angle / 90 = 2) by lia.
    destruct Hc as [-> | [-> | ->]]; reflexivity.
  - rewrite (Z.min_r (90 * (angle / 90)) 270) by lia.
    rewrite (Z.min_r (angle / 90) 3) by lia. reflexivity.
Qed.

Lemma rotation_quarter_turns_witness :
  VipsAngle_of (getAngle 360) = Z.min (360 / 90) 3.
Proof.
  apply (rotation_quarter_turns 360). unfold GoInt.int_max. lia.
Defined.

(** ** Saving *)

(** For PNG output the last stage of [Resize] does not depend on
    [Quality] (nor on any option but [Savetype]): the wrapper
    [vips_pngsave_custom] drops its [strip] and [quality] arguments. *)
Theorem Resize_finish_png_ignores_quality
    (E : Engine) (o1 o2 : Options) (i t : handle) (w : World) :
  Savetype o1 = PNG -> Savetype o2 = PNG ->
  fst (Resize_finish E (mkLocals o1 i t, w))
  = fst (Resize_finish E (mkLocals o2 i t, w))
  /\ snd (snd (Resize_finish E (mkLocals o1 i t, w)))
     = snd (snd (Resize_finish E (mkLocals o2 i t, w))).
Proof.
  intros H1 H2.
  pose proof (Resize_finish_spec E o1 i t w) as F1.
  pose proof (Resize_finish_spec E o2 i t w) as F2.
  cbv zeta in F1, F2. rewrite F1, F2. cbn [fst snd].
  unfold save_result, save_call. rewrite H1, H2. cbn [Z.eqb PNG WEBP Pos.eqb].
  split; reflexivity.
Qed.

Lemma Resize_finish_png_ignores_quality_witness :
  let E := Demo.engine Demo.thumb true true in
  let o1 := mkOptions 0 0 false false EXTEND_BLACK false BICUBIC CENTRE 10
              (S754_zero false) (S754_zero false) PNG false D0 false false in
  let o2 := mkOptions 0 0 false false EXTEND_BLACK false BICUBIC CENTRE 90
              (S754_zero false) (S754_zero false) PNG false D0 false false in
  fst (Resize_finish E (mkLocals o1 (Some Demo.thumb) None, world0))
  = fst (Resize_finish E (mkLocals o2 (Some Demo.thumb) None, world0))
  /\ snd (snd (Resize_finish E (mkLocals o1 (Some Demo.thumb) None, world0)))
     = snd (snd (Resize_finish E (mkLocals o2 (Some Demo.thumb) None, world0))).
Proof.
  apply (Resize_finish_png_ignores_quality (Demo.engine Demo.thumb true true));
    reflexivity.
Defined.

(** ** [AutoRotate], the other paths *)

(** [AutoRotate] on a file that loads, path by path. *)
Lemma AutoRotate_run
    (E : Engine) (file : string) (o : Options) (w : World) (img : Image) :
  vips_image_new_from_file E file = Some img ->
  AutoRotate E file o w =
  if (fst (calculateRotationAndFlip img 0) =? 0)
     && negb (snd (calculateRotationAndFlip img 0)) then
    (Returned (None, None), mkLocals o (Some img) None,
     mkWorld EmptyString
       (calls w ++ [Cimage_new_from_file file; Cthread_shutdown; Cerror_clear]))
  else if ret (vips_autorot E (Some img)) =? 0 then
    (buffer_result
       (GoBytes_of (save_result E (stored None (vips_autorot E (Some img)))
                                (with_default_quality o))),
     mkLocals (with_default_quality o) (Some img)
              (stored None (vips_autorot E (Some img))),
     mkWorld EmptyString
       (calls w ++ [Cimage_new_from_file file; Cautorot (Some img);
                    save_call (stored None (vips_autorot E (Some img)))
                              (with_default_quality o);
                    Cg_object_unref (stored None (vips_autorot E (Some img)));
                    Cthread_shutdown; Cerror_clear]))
  else
    (Returned (None, Some (error_buffer w +:+ msg (vips_autorot E (Some img)))),
     mkLocals o (Some img) (stored None (vips_autorot E (Some img))),
     mkWorld EmptyString
       (calls w ++ [Cimage_new_from_file file; Cautorot (Some img);
                    Cerror_clear; Cthread_shutdown;
                    Cthread_shutdown; Cerror_clear])).
Proof.
  intros Hload.
  unfold AutoRotate, run, AutoRotate_body.
  mstep by reflexivity. rewrite Hload.
  mstep by reflexivity.
  unfold with_defer, AutoRotate_cleanup.
  destruct (calculateRotationAndFlip img 0) as [rotate flip]. cbn [fst snd].
  destruct ((rotate =? 0) && negb flip).
  { cbv beta iota delta [return_ calls error_buffer].
    rewrite <- !app_assoc. reflexivity. }
  mstep by reflexivity.
  mstep by reflexivity.
  mstep by reflexivity.
  destruct (ret (vips_autorot E (Some img)) =? 0); cbn [negb].
  - mstep by reflexivity.
    unfold with_default_quality.
    destruct (Quality o =? 0);
      (mstep by reflexivity);
      (mstep by reflexivity);
      (mstep by reflexivity);
      (mstep by apply save_spec);
      (mstep by reflexivity);
      unfold bind; rewrite GoBytes_spec;
      destruct (GoBytes_of _);
      cbv beta iota delta [return_ calls error_buffer];
      rewrite <- !app_assoc; reflexivity.
  - mstep by reflexivity.
    cbv beta iota delta [return_ calls error_buffer].
    rewrite <- !app_assoc. reflexivity.
Qed.

Lemma AutoRotate_load_failed
    (E : Engine) (file : string) (o : Options) (w : World) :
  vips_image_new_from_file E file = None ->
  AutoRotate E file o w
  = (Returned (None, Some (error_buffer w)), mkLocals o None None,
     mkWorld EmptyString
       (calls w ++ [Cimage_new_from_file file; Cerror_clear; Cthread_shutdown;
                    Cthread_shutdown; Cerror_clear])).
Proof.
  intros Hload.
  unfold AutoRotate, run, AutoRotate_body.
  mstep by reflexivity. rewrite Hload.
  mstep by reflexivity.
  unfold with_defer, AutoRotate_cleanup.
  mstep by reflexivity.
  cbv beta iota delta [return_ calls error_buffer].
  rewrite <- !app_assoc. reflexivity.
Qed.



Lemma save_reads_quality_and_savetype (E : Engine) (h : handle) (o1 o2 : Options) :
  Quality o1 = Quality o2 -> Savetype o1 = Savetype o2 ->
  save_result E h (with_default_quality o1) = save_result E h (with_default_quality o2)
  /\ save_call h (with_default_quality o1) = save_call h (with_default_quality o2).
Proof.
  intros HQ HS. unfold save_result, save_call, with_default_quality.
  rewrite HQ. destruct (Quality o2 =? 0); cbn; rewrite ?HQ, HS; split; reflexivity.
Qed.

(** [AutoRotate] reads two options only, [Quality] and [Savetype]: two
    calls whose options agree on these return the same results and make
    the same native calls.  [NoAutoRotate], [Rotate], [Flip] and [Flop]
    have no effect on it. *)
Theorem AutoRotate_reads_quality_and_savetype
    (E : Engine) (file : string) (o1 o2 : Options) (w : World) :
  Quality o1 = Quality o2 -> Savetype o1 = Savetype o2 ->
  fst (fst (AutoRotate E file o1 w)) = fst (fst (AutoRotate E file o2 w))
  /\ snd (AutoRotate E file o1 w) = snd (AutoRotate E file o2 w).
Proof.
  intros HQ HS.
  destruct (vips_image_new_from_file E file) as [img|] eqn:Hload.
  - rewrite !(AutoRotate_run E file _ w img Hload).
    destruct (save_reads_quality_and_savetype E
                (stored None (vips_autorot E (Some img))) o1 o2 HQ HS)
      as [Hr Hc].
    rewrite Hr, Hc.
    destruct (_ && _); [split; reflexivity|].
    destruct (_ =? 0); split; reflexivity.
  - rewrite !(AutoRotate_load_failed E file _ w Hload). split; reflexivity.
Qed.

Lemma AutoRotate_reads_quality_and_savetype_witness :
  let E := Demo.engine Demo.sideways true true in
  let o1 := Demo.no_options in
  let o2 := mkOptions 10 20 true true EXTEND_WHITE true NOHALO EAST 0
              (S754_zero false) (S754_zero false) UNKNOWN true D180 true true in
  fst (fst (AutoRotate E "a.jpg" o1 world0)) = fst (fst (AutoRotate E "a.jpg" o2 world0))
  /\ snd (AutoRotate E "a.jpg" o1 world0) = snd (AutoRotate E "a.jpg" o2 world0).
Proof.
  apply (AutoRotate_reads_quality_and_savetype (Demo.engine Demo.sideways true true)
           "a.jpg"); reflexivity.
Defined.

(** ** The plan, whatever the floats are *)

Lemma Resize_shrink_positive (factor : F64.float64) : 1 <= Resize_shrink factor.
Proof.
  unfold Resize_shrink.
  destruct (Z.ltb_spec (F64.to_int (F64.Floor factor)) 1); lia.
Qed.

(** For every input size and every option value, also those that make
    [factor] zero, infinite or not a number, the planned integral shrink
    is at least 1, and the shrink-on-load factor is 1 or, for a JPEG
    only, 2, 4 or 8 and then not larger than the shrink. *)
Theorem Resize_plan_shrink_bounds
    (typ : ImageType) (inWidth inHeight : Z) (o : Options) :
  let pn := Resize_plan typ inWidth inHeight o in
  1 <= p_shrink (fst pn)
  /\ (snd pn = 1
      \/ (typ = JPEG /\ (snd pn = 2 \/ snd pn = 4 \/ snd pn = 8)
          /\ snd pn <= p_shrink (fst pn))).
Proof.
  cbv zeta. unfold Resize_plan.
  destruct (Resize_calculations inWidth inHeight o) as [f o'].
  pose proof (Resize_shrink_positive f) as Hs.
  set (p := Resize_enlarge_guard inWidth inHeight _).
  assert (Hp : 1 <= p_shrink p).
  { unfold p, Resize_enlarge_guard. cbn [p_o].
    destruct (negb (Enlarge o')); [|exact Hs].
    destruct (_ && _); [cbn; lia|exact Hs]. }
  unfold Resize_shrink_on_load.
  destruct (Z.eqb_spec typ JPEG) as [Ht|Ht]; cbn [andb]; [|cbn; auto].
  destruct (Z.geb_spec (p_shrink p) 2); [|cbn; auto].
  destruct (Z.geb_spec (p_shrink p) 8); [cbn; split; [lia|right; auto with zarith]|].
  destruct (Z.geb_spec (p_shrink p) 4); [cbn; split; [lia|right; auto with zarith]|].
  cbn; split; [lia|right; auto with zarith].
Qed.

Lemma same_but_size_refl (o : Options) : same_but_size o o.
Proof. unfold same_but_size. tauto. Qed.

Lemma same_but_size_set (o : Options) (w h : Z) :
  same_but_size (set_Height (set_Width o w) h) o.
Proof. unfold same_but_size. cbn. tauto. Qed.

(** Planning changes nothing of the options but [Width] and [Height],
    and it changes a dimension the caller fixed (a positive one) in one
    case only: the enlarge guard, which replaces both by the input
    size. *)
Theorem Resize_plan_touches_size_only
    (typ : ImageType) (inWidth inHeight : Z) (o : Options) :
  let o' := p_o (fst (Resize_plan typ inWidth inHeight o)) in
  same_but_size o' o
  /\ (Width o' = inWidth /\ Height o' = inHeight /\ Enlarge o = false
      \/ (0 < Width o -> Width o' = Width o) /\ (0 < Height o -> Height o' = Height o)).
Proof.
  cbv zeta. unfold Resize_plan.
  assert (Hc : same_but_size (snd (Resize_calculations inWidth inHeight o)) o
               /\ (0 < Width o ->
                   Width (snd (Resize_calculations inWidth inHeight o)) = Width o)
               /\ (0 < Height o ->
                   Height (snd (Resize_calculations inWidth inHeight o)) = Height o)).
  { unfold Resize_calculations.
    destruct (Z.gtb_spec (Width o) 0); destruct (Z.gtb_spec (Height o) 0);
      cbn [andb snd]; unfold same_but_size; cbn; repeat split; intros; lia || reflexivity. }
  destruct (Resize_calculations inWidth inHeight o) as [f o1].
  cbn [snd] in Hc. destruct Hc as (Hsame & Hw & Hh).
  destruct (Resize_shrink_on_load typ _ _) as [f' n]. cbn [fst p_o].
  unfold Resize_enlarge_guard. cbn [p_o].
  assert (He : Enlarge o1 = Enlarge o) by (unfold same_but_size in Hsame; tauto).
  rewrite He.
  destruct (Enlarge o); cbn [negb].
  - split; [exact Hsame|]. right. split; assumption.
  - destruct (_ && _); cbn [p_o].
    + split.
      * unfold same_but_size in *. cbn. tauto.
      * left. cbn. auto.
    + split; [exact Hsame|]. right. split; assumption.
Qed.

(** ** [Initialize] and [Shutdown] *)

(** Once [Initialize] has succeeded, a further [Initialize] does
    nothing: it makes no native call and leaves the process as it is,
    whatever libvips would have answered. *)
Theorem Initialize_idempotent (status status' : Z) (p : Process) :
  fst (Initialize status p) = Returned tt ->
  Initialize status' (snd (Initialize status p))
  = (Returned tt, snd (Initialize status p)).
Proof.
  unfold Initialize. destruct (initialized p) eqn:Hi; cbn [fst snd].
  - intros _. rewrite Hi. reflexivity.
  - destruct (negb (status =? 0)); cbn [fst snd]; [discriminate|].
    intros _. reflexivity.
Qed.

Lemma Initialize_idempotent_witness :
  Initialize 7 (snd (Initialize 0 process0))
  = (Returned tt, snd (Initialize 0 process0)).
Proof.
  apply (Initialize_idempotent 0 7 process0). reflexivity.
Defined.

(** [Shutdown] undoes [Initialize]: after it the flag is down, a second
    [Shutdown] does nothing, and the next [Initialize] starts libvips
    again with the same calls as the first. *)
Theorem Shutdown_then_Initialize (status : Z) (p : Process) :
  initialized (Shutdown p) = false
  /\ Shutdown (Shutdown p) = Shutdown p
  /\ fst (Initialize status (Shutdown p)) = fst (Initialize status process0)
  /\ lifecycle (snd (Initialize status (Shutdown p)))
     = lifecycle (Shutdown p) ++ lifecycle (snd (Initialize status process0)).
Proof.
  unfold Shutdown, Initialize, process0.
  destruct (initialized p) eqn:Hi; cbn [negb initialized lifecycle fst snd];
    rewrite ?Hi; cbn [negb initialized lifecycle fst snd];
    destruct (negb (status =? 0)); cbn [negb initialized lifecycle fst snd app];
    rewrite <- ?app_assoc; repeat split; reflexivity.
Qed.

(** When libvips does not start, [Initialize] panics after shutting
    libvips down, the OS thread is unlocked all the same, and the flag
    stays down, so that a later [Initialize] tries again. *)
Theorem Initialize_failure (status status' : Z) (p : Process) :
  initialized p = false -> status <> 0 ->
  Initialize status p
  = (Panicked "unable to start vips!",
     mkProcess false
       (lifecycle p ++ [LLockOSThread; Lvips_initialize;
                        Lvips_shutdown; LUnlockOSThread]))
  /\ exists before,
       lifecycle (snd (Initialize status' (snd (Initialize status p))))
       = before ++ lifecycle (snd (Initialize status' process0)).
Proof.
  intros Hi Hs. unfold Initialize, process0. rewrite Hi.
  destruct (Z.eqb_spec status 0) as [|_]; [contradiction|].
  cbn [negb initialized lifecycle fst snd]. rewrite <- !app_assoc. cbn [app].
  split; [reflexivity|].
  exists (lifecycle p ++ [LLockOSThread; Lvips_initialize;
                          Lvips_shutdown; LUnlockOSThread]).
  destruct (negb (status' =? 0)); cbn [lifecycle snd app];
    rewrite <- !app_assoc; reflexivity.
Qed.

Lemma Initialize_failure_witness :
  Initialize (-1) process0
  = (Panicked "unable to start vips!",
     mkProcess false
       (lifecycle process0 ++ [LLockOSThread; Lvips_initialize;
                               Lvips_shutdown; LUnlockOSThread]))
  /\ exists before,
       lifecycle (snd (Initialize 0 (snd (Initialize (-1) process0))))
       = before ++ lifecycle (snd (Initialize 0 process0)).
Proof.
  apply (Initialize_failure (-1) 0 process0); [reflexivity | lia].
Defined.

(** ** The sniffer on short and empty buffers *)

Ltac detect_case arr :=
  unfold Resize_detect, Slice.slice, Slice.cap; cbn [Slice.arr Slice.len];
  repeat match goal with
         | |- context [(?k <=? length arr)%nat] =>
             let H := fresh in
             first [ assert (H : (k <=? length arr)%nat = true)
                       by (apply Nat.leb_le; lia)
                   | assert (H : (k <=? length arr)%nat = false)
                       by (apply Nat.leb_gt; lia) ];
             rewrite !H; clear H
         end;
  unfold Slice.Equal, Slice.contents;
  change (firstn (Slice.len MARKER_JPEG) (Slice.arr MARKER_JPEG))
    with [Byte.xff; Byte.xd8];
  change (firstn (Slice.len MARKER_PNG) (Slice.arr MARKER_PNG))
    with [Byte.x89; Byte.x50];
  change (firstn (Slice.len MARKER_RIFF) (Slice.arr MARKER_RIFF))
    with [Byte.x52; Byte.x49; Byte.x46; Byte.x46];
  cbv beta iota delta [bind val or_panic return_ panic andb Nat.leb
    Nat.sub Slice.arr Slice.len];
  change (skipn 0 arr) with arr;
  repeat match goal with
         | |- context [Slice.bytes_eqb ?a ?b] => destruct (Slice.bytes_eqb a b)
         end;
  split; reflexivity.

(** Which buffers make the detection panic: those with room for less
    than two bytes; those that start with neither the JPEG nor the PNG
    signature and have room for less than four; and those that start
    with [RIFF] and have room for less than twelve.  The room is the
    capacity of the slice, not its length; the state is not touched. *)
Theorem Resize_detect_panics (buf : Slice.t) (s : Locals * World) :
  let a := Slice.arr buf in
  let n := Slice.cap buf in
  let jpeg := Slice.bytes_eqb (firstn 2 a) [Byte.xff; Byte.xd8] in
  let png := Slice.bytes_eqb (firstn 2 a) [Byte.x89; Byte.x50] in
  let riff :=
    Slice.bytes_eqb (firstn 4 a) [Byte.x52; Byte.x49; Byte.x46; Byte.x46] in
  is_panic (fst (Resize_detect buf s))
  = ((n <? 2)%nat
     || (negb jpeg && negb png && ((n <? 4)%nat || (riff && (n <? 12)%nat))))
  /\ snd (Resize_detect buf s) = s.
Proof.
  destruct buf as [arr len]. cbv zeta. unfold Slice.cap. cbn [Slice.arr].
  destruct (Nat.leb_spec 2 (length arr)) as [H2|H2];
    destruct (Nat.ltb_spec (length arr) 2) as [L2|L2]; try lia;
    destruct (Nat.leb_spec 4 (length arr)) as [H4|H4];
    destruct (Nat.ltb_spec (length arr) 4) as [L4|L4]; try lia;
    destruct (Nat.leb_spec 12 (length arr)) as [H12|H12];
    destruct (Nat.ltb_spec (length arr) 12) as [L12|L12]; try lia;
    detect_case arr.
Qed.

Lemma Resize_detect_outcome (buf : Slice.t) (s : Locals * World) :
  exists x, Resize_detect buf s = (x, s)
            /\ (x = Val JPEG \/ x = Val PNG \/ x = Val WEBP
                \/ x = Return unknown_format \/ exists why, x = Panic why).
Proof.
  unfold Resize_detect.
  destruct (Slice.slice buf 0 2) as [b2|];
    cbv beta iota delta [bind val or_panic return_ panic];
    [|eexists; split; [reflexivity|]; eauto 10].
  destruct (Slice.Equal b2 MARKER_JPEG);
    [eexists; split; [reflexivity|]; eauto 10|].
  destruct (Slice.Equal b2 MARKER_PNG);
    [eexists; split; [reflexivity|]; eauto 10|].
  destruct (Slice.slice buf 0 4) as [b4|];
    [|eexists; split; [reflexivity|]; eauto 10].
  destruct (Slice.Equal b4 MARKER_RIFF);
    [|eexists; split; [reflexivity|]; eauto 10].
  destruct (Slice.slice buf 8 12) as [b8|];
    [|eexists; split; [reflexivity|]; eauto 10].
  destruct (Slice.Equal b8 MARKER_WEBP);
    eexists; (split; [reflexivity|]); eauto 10.
Qed.

(** An empty buffer never reaches the engine: [Resize] makes no native
    call on it, and either returns the format error or panics (in the
    detection, or at [&buf[0]] when the bytes behind the empty slice
    carry a signature). *)
Theorem Resize_empty_buffer
    (E : Engine) (buf : Slice.t) (o : Options) (w : World) :
  Slice.len buf = 0%nat ->
  snd (Resize E buf o w) = w
  /\ match fst (fst (Resize E buf o w)) with
     | Returned r => r = unknown_format
     | Panicked _ => True
     end.
Proof.
  intros Hlen. unfold Resize, run, Resize_body, bind.
  destruct (Resize_detect_outcome buf (mkLocals o None None, w)) as (x & Hx & Hc).
  rewrite Hx.
  assert (Hfeed : forall typ, typ = JPEG \/ typ = PNG \/ typ = WEBP ->
            Resize_feed E typ buf (mkLocals o None None, w)
            = (Panic "index out of range", (mkLocals o None None, w))).
  { intros typ Ht. unfold Resize_feed, Slice.addr0. rewrite Hlen.
    destruct Ht as [-> | [-> | ->]]; reflexivity. }
  destruct Hc as [-> | [-> | [-> | [-> | [why ->]]]]];
    rewrite ?Hfeed by auto; cbn [fst snd]; split; auto.
Qed.

Lemma Resize_empty_buffer_witness :
  snd (Resize (Demo.engine Demo.thumb true true) (Slice.of_list [])
              Demo.no_options world0) = world0
  /\ match fst (fst (Resize (Demo.engine Demo.thumb true true) (Slice.of_list [])
                            Demo.no_options world0)) with
     | Returned r => r = unknown_format
     | Panicked _ => True
     end.
Proof.
  apply (Resize_empty_buffer (Demo.engine Demo.thumb true true) (Slice.of_list [])
           Demo.no_options world0).
  reflexivity.
Defined.

(** ** A request without a size *)

Lemma Resize_plan_no_size (typ : ImageType) (inWidth inHeight : Z) (o : Options) :
  Width o <= 0 -> Height o <= 0 ->
  Resize_plan typ inWidth inHeight o =
  (mkPlan (F64.of_int 1) 1 (F64.of_int 1)
          (set_Height (set_Width o inWidth) inHeight), 1).
Proof.
  intros Hw Hh. unfold Resize_plan, Resize_calculations.
  assert (H1 : (Width o >? 0) = false) by lia.
  assert (H2 : (Height o >? 0) = false) by lia.
  rewrite H1, H2. cbn [andb].
  change (Resize_shrink (F64.of_int 1)) with 1.
  change (F64.div (F64.of_int 1) (F64.of_int 1)) with (F64.of_int 1).
  unfold Resize_enlarge_guard. cbn [p_o p_shrink p_factor p_residual].
  assert (H3 : (inWidth <? Width (set_Height (set_Width o inWidth) inHeight)) = false)
    by (cbn; lia).
  rewrite H3. cbn [andb].
  destruct (negb (Enlarge (set_Height (set_Width o inWidth) inHeight)));
    cbn [p_o p_shrink p_factor p_residual];
    unfold Resize_shrink_on_load; destruct (typ =? JPEG); reflexivity.
Qed.

Lemma Resize_affine_unit (E : Engine) (p : Plan) (o : Options) (img : Image)
    (t : handle) (w : World) :
  p_residual p = F64.of_int 1 ->
  ret (vips_affine E (Some img) (F64.of_int 1) (F64.of_int 0) (F64.of_int 0)
         (F64.of_int 1) (Interpolator_String (Interpolator (p_o p)))) = 0 ->
  Resize_affine E p (mkLocals o (Some img) t, w) =
  (Val tt,
   (let af := vips_affine E (Some img) (F64.of_int 1) (F64.of_int 0)
                (F64.of_int 0) (F64.of_int 1)
                (Interpolator_String (Interpolator (p_o p))) in
    (mkLocals o (stored t af) (stored t af),
     mkWorld (error_buffer w +:+ msg af)
       (calls w ++ [Cinterpolate_new (Interpolator_String (Interpolator (p_o p)));
                    Caffine (Some img) (F64.of_int 1) (F64.of_int 0)
                            (F64.of_int 0) (F64.of_int 1)
                            (Interpolator_String (Interpolator (p_o p)));
                    Cg_object_unref (Some img);
                    Cg_object_unref_interpolate
                      (Interpolator_String (Interpolator (p_o p)))])))).
Proof.
  intros Hres Hret. unfold Resize_affine. rewrite Hres.
  change (F64.eqb (F64.of_int 1) (F64.of_int 0)) with false. cbn [negb].
  (mstep by reflexivity). (mstep by reflexivity). (mstep by reflexivity).
  (mstep by reflexivity). (mstep by reflexivity).
  rewrite Hret. cbn [Z.eqb negb]. cbv zeta. unfold val.
  rewrite <- !app_assoc. reflexivity.
Qed.

(** With neither [Width] nor [Height] asked for, the plan is factor 1,
    shrink 1 and residual 1, not 0: the "identity transform" still runs
    the affine step, with the unit matrix and the interpolator named by
    [Interpolator] ("bicubic" for the zero value).  When that call gives
    back an image of the input's size, [Resize] encodes it. *)
Theorem Resize_without_size_resamples
    (E : Engine) (buf : Slice.t) (o : Options) (w w1 : World)
    (typ : ImageType) (img img2 : Image) :
  (typ <- Resize_detect buf;; Resize_feed E typ buf;;; val typ)
    (mkLocals o None None, w)
  = (Val typ, (mkLocals o (Some img) None, w1)) ->
  Width o <= 0 -> Height o <= 0 ->
  let name := Interpolator_String (Interpolator o) in
  let one := F64.of_int 1 in
  let zero := F64.of_int 0 in
  let af := vips_affine E (Some img) one zero zero one name in
  ret af = 0 -> out af = Some img2 ->
  Xsize img2 = Xsize img -> Ysize img2 = Ysize img ->
  let o' := set_Height (set_Width (with_default_quality o) (Xsize img)) (Ysize img) in
  let h := stored (Some img2) (vips_colourspace E (Some img2)) in
  Resize_plan typ (Xsize img) (Ysize img) (with_default_quality o)
  = (mkPlan one 1 one o', 1)
  /\ Resize E buf o w
     = (buffer_result (GoBytes_of (save_result E h o')),
        mkLocals o' h h,
        mkWorld EmptyString
          (calls w1 ++ [Cinterpolate_new name;
                        Caffine (Some img) one zero zero one name;
                        Cg_object_unref (Some img);
                        Cg_object_unref_interpolate name;
                        Ccolourspace (Some img2); Cg_object_unref (Some img2);
                        save_call h o'; Cg_object_unref h;
                        Cthread_shutdown; Cerror_clear])).
Proof.
  intros Hload Hw Hh name one zero af Hret Hout HX HY o' h.
  destruct (with_default_quality_fields o) as (Hqe & Hqw & Hqh).
  assert (Hplan : Resize_plan typ (Xsize img) (Ysize img) (with_default_quality o)
                  = (mkPlan one 1 one o', 1))
    by (apply Resize_plan_no_size; lia).
  split; [exact Hplan|].
  assert (Hname : Interpolator_String (Interpolator o') = name).
  { unfold o', name, with_default_quality. destruct (Quality o =? 0); reflexivity. }
  unfold Resize, run, Resize_body.
  unfold bind in Hload |- *.
  destruct (Resize_detect buf (mkLocals o None None, w)) as [[ty|r|why] s1];
    try discriminate Hload.
  destruct (Resize_feed E ty buf s1) as [[[]|r|why] s2]; try discriminate Hload.
  cbv beta iota delta [val] in Hload.
  injection Hload as -> ->.
  unfold with_defer, Resize_cleanup.
  assert (Hpipe : Resize_pipeline E typ buf (mkLocals o (Some img) None, w1) =
                  (match GoBytes_of (save_result E h o') with
                   | Returned b => Return (Some b, None)
                   | Panicked why => Panic why
                   end,
                   (mkLocals o' h h,
                    mkWorld (((error_buffer w1 +:+ msg af)
                              +:+ msg (vips_colourspace E (Some img2)))
                             +:+ msg (save_result E h o'))
                      (calls w1 ++ [Cinterpolate_new name;
                                    Caffine (Some img) one zero zero one name;
                                    Cg_object_unref (Some img);
                                    Cg_object_unref_interpolate name;
                                    Ccolourspace (Some img2);
                                    Cg_object_unref (Some img2);
                                    save_call h o'; Cg_object_unref h])))).
  { assert (Hq : Resize_pipeline E typ buf (mkLocals o (Some img) None, w1) =
                 (let '(p, shrinkOnLoad) :=
                    Resize_plan typ (Xsize img) (Ysize img) (with_default_quality o) in
                  (set_o (p_o p);;;
                   p <- Resize_reload E buf p shrinkOnLoad;;
                   p <- Resize_do_shrink E p;;
                   Resize_affine E p;;;
                   Resize_crop_embed E;;;
                   Resize_finish E))
                   (mkLocals (with_default_quality o) (Some img) None, w1)).
    { unfold Resize_pipeline, with_default_quality.
      cbv beta iota delta [bind val get_o get_local fst snd l_o].
      destruct (Quality o =? 0); reflexivity. }
    rewrite Hq, Hplan. cbv beta iota zeta.
    (mstep by reflexivity).
    (mstep by reflexivity).
    (mstep by (apply Resize_do_shrink_skip; reflexivity)).
    erewrite bind_step; cycle 1.
    { apply Resize_affine_unit; [reflexivity|].
      cbn [p_o]. rewrite Hname. exact Hret. }
    cbn [p_o]. rewrite Hname. fold one zero af. cbv zeta.
    unfold stored at 1 2. rewrite Hout.
    (mstep by (apply Resize_crop_embed_skip; cbn; congruence)).
    rewrite (Resize_finish_spec E o' (Some img2) (Some img2)). cbv zeta.
    fold h. cbn [calls error_buffer]. rewrite <- !app_assoc. reflexivity. }
  rewrite Hpipe. cbn [calls].
  rewrite <- !app_assoc. cbn [app].
  destruct (GoBytes_of (save_result E h o')); reflexivity.
Qed.

Lemma Resize_without_size_resamples_witness :
  let E := Demo.engine Demo.thumb true true in
  let o := Demo.no_options in
  let w1 := mkWorld EmptyString [Cpngload_buffer (Slice.contents Demo.png_buf)] in
  let name := Interpolator_String (Interpolator o) in
  let one := F64.of_int 1 in
  let zero := F64.of_int 0 in
  let o' := set_Height (set_Width (with_default_quality o) 100) 100 in
  let h := stored (Some Demo.thumb) (vips_colourspace E (Some Demo.thumb)) in
  Resize_plan PNG 100 100 (with_default_quality o) = (mkPlan one 1 one o', 1)
  /\ Resize E Demo.png_buf o world0
     = (buffer_result (GoBytes_of (save_result E h o')),
        mkLocals o' h h,
        mkWorld EmptyString
          (calls w1 ++ [Cinterpolate_new name;
                        Caffine (Some Demo.thumb) one zero zero one name;
                        Cg_object_unref (Some Demo.thumb);
                        Cg_object_unref_interpolate name;
                        Ccolourspace (Some Demo.thumb);
                        Cg_object_unref (Some Demo.thumb);
                        save_call h o'; Cg_object_unref h;
                        Cthread_shutdown; Cerror_clear])).
Proof.
  apply (Resize_without_size_resamples
           (Demo.engine Demo.thumb true true) Demo.png_buf Demo.no_options world0
           (mkWorld EmptyString [Cpngload_buffer (Slice.contents Demo.png_buf)])
           PNG Demo.thumb Demo.thumb);
    [reflexivity | simpl; lia | simpl; lia | reflexivity | vm_compute; reflexivity
    | reflexivity | reflexivity].
Defined.

(** ** Embedding *)

Lemma to_cint_id (z : Z) : - 2 ^ 31 <= z <= 2 ^ 31 - 1 -> GoInt.to_cint z = z.
Proof.
  intros H. unfold GoInt.to_cint. rewrite Z.mod_small; lia.
Qed.

Lemma half_margin (d : Z) :
  0 <= d -> 0 <= d ÷ 2 /\ d ÷ 2 <= d /\ 0 <= (d - d ÷ 2) - d ÷ 2 <= 1.
Proof.
  intros Hd. rewrite Z.quot_div_nonneg by lia.
  pose proof (Z.div_mod d 2 ltac:(lia)) as Hdm.
  pose proof (Z.mod_pos_bound d 2 ltac:(lia)) as Hm.
  lia.
Qed.

(** With [Embed] (and no [Crop]) an image that is not larger than the
    target on either axis is placed in the middle of the canvas: the
    embed call gets the offsets [(Width - w) / 2] and [(Height - h) / 2],
    which are not negative, keep the image inside the canvas, and leave a
    right (bottom) margin equal to the left (top) one or one pixel
    wider. *)
Theorem Resize_embed_centres
    (E : Engine) (o : Options) (img : Image) (t : handle) (w : World) :
  Crop o = false -> Embed o = true ->
  0 <= Xsize img <= Width o -> Width o <= 2 ^ 31 - 1 ->
  0 <= Ysize img <= Height o -> Height o <= 2 ^ 31 - 1 ->
  Xsize img <> Width o \/ Ysize img <> Height o ->
  let left := (Width o - Xsize img) ÷ 2 in
  let top := (Height o - Ysize img) ÷ 2 in
  (exists rest,
     calls (snd (snd (Resize_crop_embed E (mkLocals o (Some img) t, w))))
     = calls w ++ Cembed (Some img) left top (Width o) (Height o)
                         (GoInt.to_cint (Extend o)) :: rest)
  /\ 0 <= left /\ left + Xsize img <= Width o
  /\ 0 <= (Width o - Xsize img - left) - left <= 1
  /\ 0 <= top /\ top + Ysize img <= Height o
  /\ 0 <= (Height o - Ysize img - top) - top <= 1.
Proof.
  intros Hc He HX HW HY HH Hne left top.
  pose proof (half_margin (Width o - Xsize img) ltac:(lia)) as Hl.
  pose proof (half_margin (Height o - Ysize img) ltac:(lia)) as Ht.
  fold left in Hl. fold top in Ht.
  split; [|lia].
  unfold Resize_crop_embed.
  (mstep by reflexivity). (mstep by reflexivity). (mstep by reflexivity).
  assert (Hd : negb (Xsize img =? Width o) || negb (Ysize img =? Height o) = true).
  { destruct (Z.eqb_spec (Xsize img) (Width o));
      destruct (Z.eqb_spec (Ysize img) (Height o)); cbn; auto. lia. }
  rewrite Hd, Hc, He.
  assert (HL : GoInt.to_cint (GoInt.div (GoInt.sub (Width o) (Xsize img)) 2) = left).
  { unfold GoInt.div, GoInt.sub.
    rewrite (wrap_id (Width o - Xsize img))
      by (unfold GoInt.is_int, GoInt.int_min, GoInt.int_max; lia).
    fold left.
    rewrite wrap_id by (unfold GoInt.is_int, GoInt.int_min, GoInt.int_max; lia).
    apply to_cint_id. lia. }
  assert (HT : GoInt.to_cint (GoInt.div (GoInt.sub (Height o) (Ysize img)) 2) = top).
  { unfold GoInt.div, GoInt.sub.
    rewrite (wrap_id (Height o - Ysize img))
      by (unfold GoInt.is_int, GoInt.int_min, GoInt.int_max; lia).
    fold top.
    rewrite wrap_id by (unfold GoInt.is_int, GoInt.int_min, GoInt.int_max; lia).
    apply to_cint_id. lia. }
  cbv zeta. rewrite HL, HT.
  rewrite (to_cint_id (Width o)) by lia.
  rewrite (to_cint_id (Height o)) by lia.
  (mstep by reflexivity). (mstep by reflexivity). (mstep by reflexivity).
  destruct (ret (vips_embed E (Some img) left top (Width o) (Height o)
                   (GoInt.to_cint (Extend o))) =? 0); cbn [negb].
  - cbn [val fst snd calls]. rewrite <- !app_assoc. cbn [app].
    eexists. reflexivity.
  - (mstep by reflexivity). cbn [return_ fst snd calls].
    rewrite <- !app_assoc. cbn [app]. eexists. reflexivity.
Qed.

Lemma Resize_embed_centres_witness :
  let E := Demo.engine Demo.thumb true true in
  let o := mkOptions 151 200 false true EXTEND_WHITE true BICUBIC CENTRE 0
             (S754_zero false) (S754_zero false) UNKNOWN false D0 false false in
  let left := (200 - 100) ÷ 2 in
  let top := (151 - 100) ÷ 2 in
  (exists rest,
     calls (snd (snd (Resize_crop_embed E (mkLocals o (Some Demo.thumb) None, world0))))
     = calls world0 ++ Cembed (Some Demo.thumb) left top 200 151
                              (GoInt.to_cint EXTEND_WHITE) :: rest)
  /\ 0 <= left /\ left + 100 <= 200
  /\ 0 <= (200 - 100 - left) - left <= 1
  /\ 0 <= top /\ top + 100 <= 151
  /\ 0 <= (151 - 100 - top) - top <= 1.
Proof.
  apply (Resize_embed_centres (Demo.engine Demo.thumb true true)
           (mkOptions 151 200 false true EXTEND_WHITE true BICUBIC CENTRE 0
              (S754_zero false) (S754_zero false) UNKNOWN false D0 false false)
           Demo.thumb None world0);
    try reflexivity; simpl; lia.
Defined.

(** ** Reading the EXIF orientation *)

Lemma atoi_digits_stop (rest : string) (acc : Z) :
  match rest with
  | String c _ => digit_of c = None
  | EmptyString => True
  end ->
  atoi_digits rest acc = acc.
Proof.
  destruct rest as [|c r]; intros H; [reflexivity|].
  cbn [atoi_digits]. rewrite H. reflexivity.
Qed.

Lemma atoi_leading_digit (c : ascii) (d : Z) (rest : string) :
  digit_of c = Some d ->
  match rest with
  | String c' _ => digit_of c' = None
  | EmptyString => True
  end ->
  atoi (String c rest) = d.
Proof.
  intros Hc Hrest.
  destruct c as [[] [] [] [] [] [] [] []];
    vm_compute in Hc; try discriminate Hc;
    injection Hc as <-;
    unfold atoi; cbn [skip_spaces];
    match goal with
    | |- context [is_space ?a] =>
        let b := eval vm_compute in (is_space a) in
        change (is_space a) with b
    end;
    cbv beta iota zeta; cbn [atoi_digits];
    match goal with
    | |- context [digit_of ?a] =>
        let b := eval vm_compute in (digit_of a) in
        change (digit_of a) with b
    end;
    cbv beta iota; rewrite (atoi_digits_stop rest _ Hrest);
    vm_compute; reflexivity.
Qed.

(** [vips_exif_orientation] reads the digit the header string starts
    with and ignores what follows it, such as the description libvips
    prints after the value ("6 (Right-top, Short, 1 components, 2
    bytes)"), as long as no further digit comes directly after. *)
Theorem vips_exif_orientation_leading_digit
    (c : ascii) (d : Z) (rest : string) (x y : Z) :
  digit_of c = Some d ->
  match rest with
  | String c' _ => digit_of c' = None
  | EmptyString => True
  end ->
  vips_exif_orientation (mkImage x y (Some (String c rest))) = d
  /\ calculateRotationAndFlip (mkImage x y (Some (String c rest))) 0
     = calculateRotationAndFlip (mkImage x y (Some (String c EmptyString))) 0.
Proof.
  intros Hc Hrest.
  assert (H1 : vips_exif_orientation (mkImage x y (Some (String c rest))) = d).
  { unfold vips_exif_orientation. cbn [exif_ifd0_Orientation].
    apply atoi_leading_digit; assumption. }
  assert (H2 : vips_exif_orientation (mkImage x y (Some (String c EmptyString))) = d).
  { unfold vips_exif_orientation. cbn [exif_ifd0_Orientation].
    apply atoi_leading_digit; [assumption|exact I]. }
  split; [exact H1|].
  unfold calculateRotationAndFlip, vipsExifOrientation.
  rewrite H1, H2. reflexivity.
Qed.

Lemma vips_exif_orientation_leading_digit_witness :
  let header := " (Right-top, Short, 1 components, 2 bytes)" in
  vips_exif_orientation (mkImage 640 480 (Some (String "6" header))) = 6
  /\ calculateRotationAndFlip (mkImage 640 480 (Some (String "6" header))) 0
     = calculateRotationAndFlip (mkImage 640 480 (Some (String "6" EmptyString))) 0.
Proof.
  apply (vips_exif_orientation_leading_digit "6" 6
           " (Right-top, Short, 1 components, 2 bytes)" 640 480);
    reflexivity.
Defined.
